(** * funfluid: the D2Q9 lattice solver of [funfluid/lbm/core/lattice.py]

    A shallow embedding of the parts of [BaseDefine] and [Lattice] that
    build the stencil constants, update the macroscopic fields, rasterise
    an obstacle polygon and decide when the time loop stops.

    Numbers.  The Python code computes on IEEE doubles held in numpy
    arrays.  Here a real number is a rational ([Q]) and arithmetic is
    exact; where the source divides, the model says what happens on a zero
    divisor (Python floats raise [ZeroDivisionError], numpy arrays yield a
    non-finite entry).  Integers (grid indices, tags, direction indices)
    are [Z], as Python's unbounded integers are. *)

From Stdlib Require Import ZArith QArith Qabs List Bool String Lia Lqa Sorted.
Import ListNotations.

Local Open Scope Z_scope.

(** ** Exceptions the modelled code can raise *)

Inductive exn : Type :=
  | GridConfigError     (* named by the specification; no such class in the source *)
  | ValueError
  | IndexError
  | ZeroDivisionError.

Inductive result (A : Type) : Type :=
  | Ok (a : A)
  | Raise (e : exn).
Arguments Ok {A} a.
Arguments Raise {A} e.

Definition bind {A B : Type} (r : result A) (k : A -> result B) : result B :=
  match r with
  | Ok a => k a
  | Raise e => Raise e
  end.

Notation "'let*' x ':=' r 'in' k" := (bind r (fun x => k))
  (at level 10, x pattern, r at level 100, k at level 200).

(** ** numpy indexing along one axis

    [a[k]] on an axis of length [n] accepts [-n <= k < n]; a negative [k]
    counts from the end.  Anything else raises [IndexError]. *)

Definition np_index (n k : Z) : result nat :=
  if (0 <=? k) && (k <? n) then Ok (Z.to_nat k)
  else if (- n <=? k) && (k <? 0) then Ok (Z.to_nat (n + k))
  else Raise IndexError.

Definition np_get {A : Type} (a : list A) (k : Z) : result A :=
  let* p := np_index (Z.of_nat (List.length a)) k in
  match nth_error a p with
  | Some x => Ok x
  | None => Raise IndexError
  end.

Definition np_get2 {A : Type} (a : list (list A)) (i j : Z) : result A :=
  let* row := np_get a i in np_get row j.

(** ** D2Q9 constants ([BaseDefine.__init__], lines 85-100) *)

Module D2Q9.

(** [self.q = 9] *)
Definition q : nat := 9.

(** [self.c]: the nine lattice velocities, as rows [(c_x, c_y)]. *)
Definition c : list (Z * Z) :=
  [ (0, 0); (1, 0); (-1, 0); (0, 1);
    (0, -1); (1, 1); (-1, -1); (-1, 1); (1, -1) ].

Definition c_x : list Z := map fst c.
Definition c_y : list Z := map snd c.

(** [np.linalg.norm(ci) < 1.1] and [> 1.1] on an integer vector: the norm
    is non-negative, so the comparison is the one of the squares,
    [c_x^2 + c_y^2] against [1.1^2 = 121/100]. *)
Definition norm2 (ci : Z * Z) : Q := inject_Z (fst ci * fst ci + snd ci * snd ci).

Definition norm_lt_1_1 (ci : Z * Z) : bool :=
  match norm2 ci ?= 121 # 100 with Lt => true | _ => false end%Q.

Definition norm_gt_1_1 (ci : Z * Z) : bool :=
  match norm2 ci ?= 121 # 100 with Gt => true | _ => false end%Q.

Definition idx_card : list bool := map norm_lt_1_1 c.
Definition idx_extra_card : list bool := map norm_gt_1_1 c.

(** [w[mask] = v]: boolean-mask assignment of a scalar. *)
Fixpoint mask_assign (w : list Q) (mask : list bool) (v : Q) : list Q :=
  match w, mask with
  | x :: w', b :: mask' => (if b then v else x) :: mask_assign w' mask' v
  | _, _ => w
  end.

(** [w[0] = v] *)
Definition set_head (w : list Q) (v : Q) : list Q :=
  match w with
  | [] => []
  | _ :: w' => v :: w'
  end.

(** [self.w], built in the four steps of lines 94-97. *)
Definition w : list Q :=
  let w0 := repeat 1%Q q in
  let w1 := mask_assign w0 idx_card (1 / 9)%Q in
  let w2 := mask_assign w1 idx_extra_card (1 / 36)%Q in
  set_head w2 (4 / 9)%Q.

Definition w_at (k : nat) : Q := nth k w 0%Q.

Definition sum_Q (l : list Q) : Q := fold_left Qplus l 0%Q.

(** [self.ns]: index of the opposite direction. *)
Definition ns : list Z := [0; 2; 1; 4; 3; 6; 5; 8; 7].

Definition ns_at (k : Z) : result Z := np_get ns k.

End D2Q9.

(** ** Array helpers *)

(** [range(n)] *)
Definition range (n : Z) : list Z := map Z.of_nat (seq 0 (Z.to_nat n)).

(** Entry [(i, j)] of a two-dimensional array, for in-range natural
    indices. *)
Definition cell {A : Type} (a : list (list A)) (i j : nat) : option A :=
  match nth_error a i with
  | Some row => nth_error row j
  | None => None
  end.

(** [a] has shape [(n, m)]. *)
Definition shape2 {A : Type} (n m : nat) (a : list (list A)) : Prop :=
  List.length a = n /\ Forall (fun row => List.length row = m) a.

Fixpoint zip_with {A B C : Type} (f : A -> B -> C) (a : list A) (b : list B) : list C :=
  match a, b with
  | x :: a', y :: b' => f x y :: zip_with f a' b'
  | _, _ => []
  end.

Definition map2d {A B : Type} (f : A -> B) (a : list (list A)) : list (list B) :=
  map (map f) a.

Definition zip2d {A B C : Type} (f : A -> B -> C)
    (a : list (list A)) (b : list (list B)) : list (list C) :=
  zip_with (zip_with f) a b.

(** [np.zeros((n, m))] and friends. *)
Definition full2d {A : Type} (n m : nat) (v : A) : list (list A) :=
  repeat (repeat v m) n.

(** [a[i] = v] for an in-range natural index. *)
Fixpoint set_nth {A : Type} (a : list A) (i : nat) (v : A) : list A :=
  match a, i with
  | [], _ => []
  | _ :: a', O => v :: a'
  | x :: a', S i' => x :: set_nth a' i' v
  end.

(** [a[i, j] = v], with numpy's index rules. *)
Definition np_set2 {A : Type} (a : list (list A)) (i j : Z) (v : A) : result (list (list A)) :=
  let* pi := np_index (Z.of_nat (List.length a)) i in
  match nth_error a pi with
  | None => Raise IndexError
  | Some row =>
      let* pj := np_index (Z.of_nat (List.length row)) j in
      Ok (set_nth a pi (set_nth row pj v))
  end.

(** A loop whose body may raise. *)
Fixpoint for_each {A S : Type} (l : list A) (body : S -> A -> result S) (s : S) : result S :=
  match l with
  | [] => Ok s
  | x :: l' => let* s' := body s x in for_each l' body s'
  end.

(** An entry of a numpy array of doubles: a finite value, a non-finite one
    ([inf] or [nan], what a division by zero leaves), or the unspecified
    content of memory that [np.empty] does not initialise. *)
Inductive npfloat : Type :=
  | Fin (x : Q)
  | NonFinite
  | Uninit.

(** Elementwise [a / b] of numpy: no exception, a zero divisor gives a
    non-finite entry. *)
Definition np_div (a b : Q) : npfloat :=
  if Qeq_bool b 0 then NonFinite else Fin (a / b).

(** ** The solver state *)

(** [class Obstacle] *)
Record Obstacle : Type := mkObstacle {
  polygon : list (Q * Q);
  area : Q;
  boundary : list (Z * Z * Z);
  ibb : list npfloat;
  tag : Z
}.

(** The attributes of [BaseDefine] that the modelled methods read or
    write.  [drag_obs_cv] and [lift_obs_cv] stand for
    [self.drag_buff.obs_cv] and [self.lift_buff.obs_cv]: class [Buff]
    lives in [funfluid/lbm/core/buff.py], which is not part of the
    sources at hand, and only the truth value of that attribute is read. *)
Record Lattice : Type := mkLattice {
  x_min : Q; x_max : Q; y_min : Q; y_max : Q;
  nx : Z; ny : Z;
  dx : Q; dt : Q;
  IBB : bool;
  stop : string;
  it_max : Z;
  lx : Z; ly : Z;
  tau_p_lbm : Q; tau_m_lbm : Q;
  om_p_lbm : Q; om_m_lbm : Q;
  g : list (list (list Q));
  rho : list (list Q);
  u : list (list (list npfloat));
  lattice : list (list Z);
  obstacles : list Obstacle;
  it : Z;
  compute : bool;
  drag_obs_cv : bool;
  lift_obs_cv : bool
}.

Definition set_rho (s : Lattice) (r : list (list Q)) : Lattice :=
  mkLattice (x_min s) (x_max s) (y_min s) (y_max s) (nx s) (ny s) (dx s) (dt s)
    (IBB s) (stop s) (it_max s) (lx s) (ly s) (tau_p_lbm s) (tau_m_lbm s)
    (om_p_lbm s) (om_m_lbm s) (g s) r (u s) (lattice s) (obstacles s)
    (it s) (compute s) (drag_obs_cv s) (lift_obs_cv s).

Definition set_u (s : Lattice) (v : list (list (list npfloat))) : Lattice :=
  mkLattice (x_min s) (x_max s) (y_min s) (y_max s) (nx s) (ny s) (dx s) (dt s)
    (IBB s) (stop s) (it_max s) (lx s) (ly s) (tau_p_lbm s) (tau_m_lbm s)
    (om_p_lbm s) (om_m_lbm s) (g s) (rho s) v (lattice s) (obstacles s)
    (it s) (compute s) (drag_obs_cv s) (lift_obs_cv s).

Definition set_g (s : Lattice) (v : list (list (list Q))) : Lattice :=
  mkLattice (x_min s) (x_max s) (y_min s) (y_max s) (nx s) (ny s) (dx s) (dt s)
    (IBB s) (stop s) (it_max s) (lx s) (ly s) (tau_p_lbm s) (tau_m_lbm s)
    (om_p_lbm s) (om_m_lbm s) v (rho s) (u s) (lattice s) (obstacles s)
    (it s) (compute s) (drag_obs_cv s) (lift_obs_cv s).

Definition set_lattice (s : Lattice) (l : list (list Z)) : Lattice :=
  mkLattice (x_min s) (x_max s) (y_min s) (y_max s) (nx s) (ny s) (dx s) (dt s)
    (IBB s) (stop s) (it_max s) (lx s) (ly s) (tau_p_lbm s) (tau_m_lbm s)
    (om_p_lbm s) (om_m_lbm s) (g s) (rho s) (u s) l (obstacles s)
    (it s) (compute s) (drag_obs_cv s) (lift_obs_cv s).

Definition set_obstacles (s : Lattice) (o : list Obstacle) : Lattice :=
  mkLattice (x_min s) (x_max s) (y_min s) (y_max s) (nx s) (ny s) (dx s) (dt s)
    (IBB s) (stop s) (it_max s) (lx s) (ly s) (tau_p_lbm s) (tau_m_lbm s)
    (om_p_lbm s) (om_m_lbm s) (g s) (rho s) (u s) (lattice s) o
    (it s) (compute s) (drag_obs_cv s) (lift_obs_cv s).

Definition set_it (s : Lattice) (n : Z) : Lattice :=
  mkLattice (x_min s) (x_max s) (y_min s) (y_max s) (nx s) (ny s) (dx s) (dt s)
    (IBB s) (stop s) (it_max s) (lx s) (ly s) (tau_p_lbm s) (tau_m_lbm s)
    (om_p_lbm s) (om_m_lbm s) (g s) (rho s) (u s) (lattice s) (obstacles s)
    n (compute s) (drag_obs_cv s) (lift_obs_cv s).

Definition set_compute (s : Lattice) (b : bool) : Lattice :=
  mkLattice (x_min s) (x_max s) (y_min s) (y_max s) (nx s) (ny s) (dx s) (dt s)
    (IBB s) (stop s) (it_max s) (lx s) (ly s) (tau_p_lbm s) (tau_m_lbm s)
    (om_p_lbm s) (om_m_lbm s) (g s) (rho s) (u s) (lattice s) (obstacles s)
    (it s) b (drag_obs_cv s) (lift_obs_cv s).

(** The grid is well shaped: the arrays have the extents the constructor
    gave them. *)
Record wf_grid (s : Lattice) : Prop := {
  wf_nx : 0 <= nx s;
  wf_ny : 0 <= ny s;
  wf_g : List.length (g s) = D2Q9.q
         /\ Forall (shape2 (Z.to_nat (nx s)) (Z.to_nat (ny s))) (g s);
  wf_u : List.length (u s) = 2%nat;
  wf_lattice : shape2 (Z.to_nat (nx s)) (Z.to_nat (ny s)) (lattice s)
}.

(** ** Construction ([BaseDefine.__init__]) *)

(** Division of Python floats: a zero divisor raises. *)
Definition py_div (a b : Q) : result Q :=
  if Qeq_bool b 0 then Raise ZeroDivisionError else Ok (a / b)%Q.

(** The keyword arguments, after [kwargs.get] has put the defaults in.
    The scaling overrides [Cx], [Ct], [Cr] are left at their defaults
    ([dx], [dt], [1.0]). *)
Record Config : Type := mkConfig {
  cfg_x_min : Q; cfg_x_max : Q; cfg_y_min : Q; cfg_y_max : Q;
  cfg_nx : Z; cfg_ny : Z;
  cfg_tau_lbm : Q;
  cfg_dx : Q; cfg_dt : Q;
  cfg_IBB : bool;
  cfg_stop : string;
  cfg_it_max : Z
}.

(** The defaults of lines 28-55, for a given resolution ([ny] defaults to
    [nx] in the source). *)
Definition default_config (n m : Z) : Config :=
  mkConfig 0 1 0 1 n m 1 1 1 false "it" 1000.

(** [__init__]: the statements that can raise, in source order, then the
    arrays.  Directory creation and logging are left out. *)
Definition init (k : Config) : result Lattice :=
  let Cx := cfg_dx k in
  let Ct := cfg_dt k in
  let Cr := 1%Q in
  (* lines 41-43: the defaults are evaluated eagerly *)
  let* _ := py_div (Cx * Cx)%Q Ct in
  let* _ := py_div Cx Ct in
  let* _ := py_div (Cr * (Cx * Cx))%Q Ct in
  (* lines 78-83 *)
  let tau_p := cfg_tau_lbm k in
  let lambda_trt := (1 / 4)%Q in
  let* t := py_div lambda_trt (tau_p - 1 / 2)%Q in
  let tau_m := (t + 1 / 2)%Q in
  let* om_p := py_div 1 tau_p in
  let* om_m := py_div 1 tau_m in
  let* _ := py_div 1 (cfg_tau_lbm k) in
  (* line 103: np.zeros refuses a negative extent *)
  if (cfg_nx k <? 0) || (cfg_ny k <? 0) then Raise ValueError
  else
    let n := Z.to_nat (cfg_nx k) in
    let m := Z.to_nat (cfg_ny k) in
    Ok (mkLattice
          (cfg_x_min k) (cfg_x_max k) (cfg_y_min k) (cfg_y_max k)
          (cfg_nx k) (cfg_ny k) (cfg_dx k) (cfg_dt k)
          (cfg_IBB k) (cfg_stop k) (cfg_it_max k)
          (cfg_nx k - 1) (cfg_ny k - 1)
          tau_p tau_m om_p om_m
          (repeat (full2d n m 0%Q) D2Q9.q)
          (full2d n m 1%Q)
          (repeat (full2d n m (Fin 0)) 2)
          (full2d n m 0)
          []
          0 false false false).

(** ** Macroscopic fields ([BaseDefine.macro]) *)

Definition add2d : list (list Q) -> list (list Q) -> list (list Q) := zip2d Qplus.

(** [np.sum(a, axis=0)] on an array of shape [(q, n, m)]. *)
Definition sum_axis0 (n m : nat) (a : list (list (list Q))) : list (list Q) :=
  fold_left add2d a (full2d n m 0%Q).

(** [k * a] for an integer scalar. *)
Definition scale2d (k : Z) (a : list (list Q)) : list (list Q) :=
  map2d (Qmult (inject_Z k)) a.

(** [np.tensordot(v, a, axes=(0, 0))]: the layers of [a] weighted by the
    entries of [v] and added up. *)
Definition tensordot (n m : nat) (v : list Z) (a : list (list (list Q))) : list (list Q) :=
  sum_axis0 n m (zip_with scale2d v a).

Definition macro (s : Lattice) : Lattice :=
  let n := Z.to_nat (nx s) in
  let m := Z.to_nat (ny s) in
  (* self.rho[:, :] = np.sum(self.g[:, :, :], axis=0) *)
  let s1 := set_rho s (sum_axis0 n m (g s)) in
  (* self.u[0, :, :] = tensordot(c[:, 0], g) / rho *)
  let s2 := set_u s1 (set_nth (u s1) 0
                        (zip2d np_div (tensordot n m D2Q9.c_x (g s1)) (rho s1))) in
  (* self.u[1, :, :] = tensordot(c[:, 1], g) / rho *)
  set_u s2 (set_nth (u s2) 1
              (zip2d np_div (tensordot n m D2Q9.c_y (g s2)) (rho s2))).

(** The nine populations of one cell, [g[:, i, j]]. *)
Definition column (a : list (list (list Q))) (i j : nat) : list Q :=
  map (fun layer => match cell layer i j with Some x => x | None => 0%Q end) a.

(** [Sum_q v[q] * x[q]] *)
Definition dot (v : list Z) (x : list Q) : Q :=
  D2Q9.sum_Q (zip_with (fun k y => inject_Z k * y)%Q v x).

(** Component [d] of the velocity at cell [(i, j)]. *)
Definition u_at (s : Lattice) (d i j : nat) : option npfloat :=
  match nth_error (u s) d with
  | Some layer => cell layer i j
  | None => None
  end.

(** A fluid cell carries tag 0, an obstacle cell a positive tag. *)
Definition is_fluid (s : Lattice) (i j : nat) : Prop := cell (lattice s) i j = Some 0.
Definition is_obstacle (s : Lattice) (i j : nat) : Prop :=
  exists t, cell (lattice s) i j = Some t /\ 0 < t.

(** ** Stopping ([Lattice.check_stop]) *)

Definition check_stop (s : Lattice) : bool * Lattice :=
  let s1 :=
    if String.eqb (stop s) "it" then
      if it s >? it_max s then set_compute s true else s
    else s in
  let s2 :=
    if String.eqb (stop s1) "obs" then
      if drag_obs_cv s1 && lift_obs_cv s1 then set_compute s1 true else s1
    else s1 in
  let s3 := set_it s2 (it s2 + 1) in
  (compute s3, s3).

(** ** Obstacle rasterisation ([Lattice.add_obstacle] and helpers) *)

Definition Qltb (a b : Q) : bool :=
  match (a ?= b)%Q with Lt => true | _ => false end.

Definition Qleb (a b : Q) : bool := Qle_bool a b.

(** [range(a, b)] *)
Definition range2 (a b : Z) : list Z := map (fun k => a + k) (range (b - a)).

(** [lattice_coords]: physical coordinates of node [(i, j)]. *)
Definition lattice_coords (s : Lattice) (i j : Z) : result (Q * Q) :=
  let* ddx := py_div (x_max s - x_min s)%Q (inject_Z (nx s - 1)) in
  let* ddy := py_div (y_max s - y_min s)%Q (inject_Z (ny s - 1)) in
  Ok (x_min s + inject_Z i * ddx, y_min s + inject_Z j * ddy)%Q.

(** One turn of the loop of [is_inside]: [st] holds the running [j] and
    [odd_nodes].  The slope is only computed under the half-open test on
    [y], where the two ordinates differ. *)
Definition is_inside_step (poly : list (Q * Q)) (pt : Q * Q)
    (st : nat * bool) (i : nat) : nat * bool :=
  let '(j, odd_nodes) := st in
  let pi := nth i poly (0, 0)%Q in
  let pj := nth j poly (0, 0)%Q in
  let odd_nodes' :=
    if ((Qltb (snd pi) (snd pt) && Qleb (snd pt) (snd pj))
        || (Qltb (snd pj) (snd pt) && Qleb (snd pt) (snd pi)))
       && (Qltb (fst pi) (fst pt) || Qltb (fst pj) (fst pt))
    then
      let slope := ((fst pj - fst pi) / (snd pj - snd pi))%Q in
      if Qltb (fst pi + (snd pt - snd pi) * slope)%Q (fst pt)
      then negb odd_nodes else odd_nodes
    else odd_nodes in
  (i, odd_nodes').

Definition is_inside (poly : list (Q * Q)) (pt : Q * Q) : bool :=
  snd (fold_left (is_inside_step poly pt)
                 (seq 0 (List.length poly))
                 ((List.length poly - 1)%nat, false)).

(** [np.amin] and [np.amax]: no value on an empty array. *)
Definition np_amin (l : list Q) : result Q :=
  match l with
  | [] => Raise ValueError
  | x :: l' => Ok (fold_left (fun m y => if Qltb y m then y else m) l' x)
  end.

Definition np_amax (l : list Q) : result Q :=
  match l with
  | [] => Raise ValueError
  | x :: l' => Ok (fold_left (fun m y => if Qltb m y then y else m) l' x)
  end.

(** [np.argmin]: index of the first smallest entry. *)
Fixpoint argmin_from (l : list Q) (k : nat) (best : nat) (bv : Q) : nat :=
  match l with
  | [] => best
  | y :: l' => if Qltb y bv then argmin_from l' (S k) k y
               else argmin_from l' (S k) best bv
  end.

Definition np_argmin (l : list Q) : result nat :=
  match l with
  | [] => Raise ValueError
  | x :: l' => Ok (argmin_from l' 1 0 x)
  end.

(** Lines 379-391: tag the cells inside the polygon, in scan order. *)
Definition fill_cell (s : Lattice) (poly : list (Q * Q)) (poly_bnds : Q * Q * Q * Q)
    (t : Z) (i : Z) (acc : list (list Z) * list (Z * Z)) (j : Z)
    : result (list (list Z) * list (Z * Z)) :=
  let '(b0, b1, b2, b3) := poly_bnds in
  let '(lat, obstacle) := acc in
  let* pt := lattice_coords s i j in
  if Qltb b0 (fst pt) && Qltb (fst pt) b1 && Qltb b2 (snd pt) && Qltb (snd pt) b3 then
    if is_inside poly pt then
      let* lat' := np_set2 lat i j t in
      Ok (lat', obstacle ++ [(i, j)])
    else Ok acc
  else Ok acc.

Definition fill (s : Lattice) (poly : list (Q * Q)) (poly_bnds : Q * Q * Q * Q) (t : Z)
    : result (list (list Z) * list (Z * Z)) :=
  for_each (range (nx s))
    (fun acc i => for_each (range (ny s)) (fill_cell s poly poly_bnds t i) acc)
    (lattice s, []).

(** Lines 397-409: for a tagged cell, look at the eight neighbours. *)
Definition boundary_dir (lat : list (list Z)) (ij : Z * Z)
    (bnd : list (Z * Z * Z)) (q : Z) : result (list (Z * Z * Z)) :=
  let* qb := np_get D2Q9.ns q in
  let* cq := np_get D2Q9.c q in
  let ii := fst ij + fst cq in
  let jj := snd ij + snd cq in
  let* v := np_get2 lat ii jj in
  if v =? 0 then Ok (bnd ++ [(ii, jj, qb)]) else Ok bnd.

Definition build_boundary (lat : list (list Z)) (obstacle : list (Z * Z))
    : result (list (Z * Z * Z)) :=
  for_each obstacle
    (fun bnd ij => for_each (range2 1 9) (boundary_dir lat ij) bnd)
    [].

(** [np.unique(boundary, axis=0)]: the rows in lexicographic order, each
    once. *)
Definition row_compare (a b : Z * Z * Z) : comparison :=
  let '(a0, a1, a2) := a in
  let '(b0, b1, b2) := b in
  match a0 ?= b0 with
  | Eq => match a1 ?= b1 with
          | Eq => a2 ?= b2
          | r => r
          end
  | r => r
  end.

Fixpoint insert_row (x : Z * Z * Z) (l : list (Z * Z * Z)) : list (Z * Z * Z) :=
  match l with
  | [] => [x]
  | y :: l' =>
      match row_compare x y with
      | Lt => x :: l
      | Eq => l
      | Gt => y :: insert_row x l'
      end
  end.

Definition np_unique (l : list (Z * Z * Z)) : list (Z * Z * Z) :=
  fold_left (fun acc x => insert_row x acc) l [].

(** Lines 432-436. *)
Definition area_cell (s : Lattice) (lat : list (list Z)) (t : Z) (i : Z) (a : Q) (j : Z)
    : result Q :=
  let* v := np_get2 lat i j in
  if v =? t then Ok (a + dx s * dx s)%Q else Ok a.

Definition compute_area (s : Lattice) (lat : list (list Z)) (t : Z) : result Q :=
  for_each (range (nx s))
    (fun a i => for_each (range (ny s)) (area_cell s lat t i) a)
    0%Q.

Section SquareRoot.

(** The square root on doubles is not a rational function: the model
    takes it as a parameter, and what is proved holds for every choice. *)
Variable sqrt : Q -> Q.

(** [np.linalg.norm] of a lattice velocity. *)
Definition norm (v : Z * Z) : Q := sqrt (inject_Z (fst v * fst v + snd v * snd v)).

(** Lines 424-426: distances from [pt] to every vertex. *)
Definition vertex_dists (poly : list (Q * Q)) (pt : Q * Q) : list Q :=
  map (fun p => let x := (fst p - fst pt)%Q in
                let y := (snd p - snd pt)%Q in
                sqrt (x * x + y * y)%Q) poly.

(** Lines 420-429: one boundary node. *)
Definition ibb_node (s : Lattice) (poly : list (Q * Q))
    (acc : list npfloat) (node : Z * Z * Z) : result (list npfloat) :=
  let '(i, j, q) := node in
  let* pt := lattice_coords s i j in
  let dist := vertex_dists poly pt in
  let* mpt := np_argmin dist in
  let* cq := np_get D2Q9.c q in
  let mdst := np_div (nth mpt dist 0%Q) (dx s * norm cq)%Q in
  Ok (acc ++ [mdst]).

Definition add_obstacle (s : Lattice) (poly : list (Q * Q)) (t : Z) : result Lattice :=
  (* lines 367-371 *)
  let* b0 := np_amin (map fst poly) in
  let* b1 := np_amax (map fst poly) in
  let* b2 := np_amin (map snd poly) in
  let* b3 := np_amax (map snd poly) in
  (* lines 374-376: ibb starts with one uninitialised entry *)
  let ibb0 := [Uninit] in
  let* (lat, obstacle) := fill s poly (b0, b1, b2, b3) t in
  let* bnd := build_boundary lat obstacle in
  let bnd := np_unique bnd in
  let* ibb1 := if IBB s then for_each bnd (ibb_node s poly) ibb0 else Ok ibb0 in
  let* a := compute_area s lat t in
  let obs := mkObstacle poly a bnd ibb1 t in
  Ok (set_obstacles (set_lattice s lat) (obstacles s ++ [obs])).

End SquareRoot.

(** ** Properties of runs, and sample inputs *)

(** Two states carry the same populations at every fluid cell of the
    first. *)
Definition agree_on_fluid (s1 s2 : Lattice) : Prop :=
  forall i j : nat, is_fluid s1 i j -> column (g s1) i j = column (g s2) i j.

(** What can happen to the solver between two calls of [check_stop]: the
    call itself, or any change of the attributes that leaves the
    [compute] flag alone (nothing in the solver clears it). *)
Inductive later : Lattice -> Lattice -> Prop :=
  | later_refl : forall s, later s s
  | later_call : forall s s', later s s' -> later s (snd (check_stop s'))
  | later_env : forall s s' s'', later s s' -> compute s'' = compute s' -> later s s''.

(** A cell strictly inside the grid. *)
Definition interior (n m : Z) (ij : Z * Z) : Prop :=
  1 <= fst ij <= n - 2 /\ 1 <= snd ij <= m - 2.

(** The smallest entry of a non-empty list ([d] for the empty one). *)
Definition list_min (l : list Q) (d : Q) : Q :=
  match l with
  | [] => d
  | x :: l' => fold_left (fun m y => if Qltb y m then y else m) l' x
  end.

(** A rational stand-in for the square root, good to six decimals. *)
Definition sqrt_approx (x : Q) : Q :=
  Z.sqrt (Qnum x * Z.pos (Qden x) * 1000000000000) # (Qden x * 1000000).

Definition unit_square : list (Q * Q) := [(0, 0); (1, 0); (1, 1); (0, 1)]%Q.

(** A one-by-two grid, fluid at [(0, 0)], obstacle at [(0, 1)], with two
    fillings of [g] that differ at the obstacle cell only. *)
Definition two_cells (v : Q) : Lattice :=
  mkLattice 0 1 0 1 1 2 1 1 false "it" 1000 0 1 1 1 1 1
    (repeat [[1; v]]%Q 9) [[1; 1]]%Q (repeat [[Fin 0; Fin 0]] 2) [[0; 1]] []
    0 false false false.

(** The default three-by-three grid, nodes at 0, 1/2 and 1. *)
Definition grid3 (with_ibb : bool) : Lattice :=
  mkLattice 0 1 0 1 3 3 1 1 with_ibb "it" 1000 2 2 1 (8 # 8) 1 (8 # 8)
    (repeat (full2d 3 3 0%Q) 9) (full2d 3 3 1%Q) (repeat (full2d 3 3 (Fin 0)) 2)
    (full2d 3 3 0) [] 0 false false false.

(** A square reaching over the top-right corner of the domain, and one
    reaching over the bottom-left corner. *)
Definition square_top_right : list (Q * Q) :=
  [(1 # 4, 1 # 4); (3 # 2, 1 # 4); (3 # 2, 3 # 2); (1 # 4, 3 # 2)].

Definition square_bottom_left : list (Q * Q) :=
  [(- 1 # 2, - 1 # 2); (3 # 4, - 1 # 2); (3 # 4, 3 # 4); (- 1 # 2, 3 # 4)].

(** A small diamond around the centre node of [grid3]. *)
Definition diamond : list (Q * Q) :=
  [(1 # 2, 1 # 5); (4 # 5, 1 # 2); (1 # 2, 4 # 5); (1 # 5, 1 # 2)].

(** A state about to be checked with the counter exactly at [it_max]. *)
Definition at_it_max : Lattice := set_it (grid3 false) 1000.

(** [grid3] with the node [(2, 0)] of the right edge already taken by
    an earlier obstacle of tag 7. *)
Definition grid3_edge_tagged : Lattice :=
  set_lattice (grid3 false) [[0; 0; 0]; [0; 0; 0]; [7; 0; 0]].

(** Is the row [x] among the rows of [l]? *)
Definition has_row (x : Z * Z * Z) (l : list (Z * Z * Z)) : bool :=
  existsb (fun y => match row_compare x y with Eq => true | _ => false end) l.

(** The boundary list of the obstacle added last. *)
Definition last_boundary (s : Lattice) : list (Z * Z * Z) :=
  match rev (obstacles s) with
  | o :: _ => boundary o
  | [] => []
  end.

(** The layer has an entry at [(i, j)]. *)
Definition has_cell (i j : nat) (layer : list (list Q)) : Prop :=
  cell layer i j <> None.

(** ** The time loop seen from [check_stop] *)

(** The solver after [n] calls of [check_stop], nothing else touching the
    attributes it reads. *)
Fixpoint calls (n : nat) (s : Lattice) : Lattice :=
  match n with
  | O => s
  | S n' => snd (check_stop (calls n' s))
  end.


(** An edge that the walk leaves untouched, whatever the flag. *)
Definition edge_skipped (poly : list (Q * Q)) (pt : Q * Q) : Prop :=
  forall (i j : nat) (o : bool),
    (i < List.length poly)%nat -> (j < List.length poly)%nat ->
    is_inside_step poly pt (j, o) i = (i, o).


(** The bounding box of a polygon, as lines 367-371 compute it. *)
Definition poly_bnds (poly : list (Q * Q)) : result (Q * Q * Q * Q) :=
  let* b0 := np_amin (map fst poly) in
  let* b1 := np_amax (map fst poly) in
  let* b2 := np_amin (map snd poly) in
  let* b3 := np_amax (map snd poly) in
  Ok (b0, b1, b2, b3).

(** The test of lines 384-387. *)
Definition strictly_in_bbox (bnds : Q * Q * Q * Q) (pt : Q * Q) : bool :=
  let '(b0, b1, b2, b3) := bnds in
  Qltb b0 (fst pt) && Qltb (fst pt) b1 && Qltb b2 (snd pt) && Qltb (snd pt) b3.

(** What holds of the tag grid and of the list of tagged cells all along
    the fill. *)
Definition fill_state (s : Lattice) (poly : list (Q * Q)) (bnds : Q * Q * Q * Q)
    (t : Z) (acc : list (list Z) * list (Z * Z)) : Prop :=
  (forall i j, In (i, j) (snd acc) ->
     0 <= i < nx s /\ 0 <= j < ny s
     /\ np_get2 (fst acc) i j = Ok t
     /\ exists pt, lattice_coords s i j = Ok pt
                   /\ strictly_in_bbox bnds pt && is_inside poly pt = true)
  /\ (forall i j, 0 <= i -> 0 <= j ->
        In (i, j) (snd acc) \/ np_get2 (fst acc) i j = np_get2 (lattice s) i j).


(** ** Error of the cavity profiles ([Lattice.cavity_error]) *)

(** [x / b] for an array entry [x] and a Python float [b]. *)
Definition np_fdiv (a : npfloat) (b : Q) : npfloat :=
  match a with
  | Fin x => np_div x b
  | NonFinite => NonFinite
  | Uninit => Uninit
  end.

Definition np_get3 {A : Type} (a : list (list (list A))) (d i j : Z) : result A :=
  let* layer := np_get a d in np_get2 layer i j.

(** [a[i] = v] on a one-dimensional array. *)
Definition np_set1 {A : Type} (a : list A) (i : Z) (v : A) : result (list A) :=
  let* p := np_index (Z.of_nat (List.length a)) i in
  Ok (set_nth a p v).

(** [np.zeros(n)] *)
Definition np_zeros1 (n : Z) : result (list npfloat) :=
  if n <? 0 then Raise ValueError else Ok (repeat (Fin 0) (Z.to_nat n)).

(** [cavity_error], up to the two arrays it computes; writing them to the
    files [cavity_uy] and [cavity_ux] is left out.  The result is
    [(ux_error, uy_error)]. *)
Definition cavity_error (s : Lattice) (u_lbm : Q) : result (list npfloat * list npfloat) :=
  let* ux_error := np_zeros1 (nx s) in
  let* uy_error := np_zeros1 (ny s) in
  (* nx = math.floor(self.nx / 2); ny = math.floor(self.ny / 2) *)
  let nx_mid := nx s / 2 in
  let ny_mid := ny s / 2 in
  let* uy_error :=
    for_each (range (nx s))
      (fun e i => let* v := np_get3 (u s) 1 i ny_mid in
                  np_set1 e i (np_fdiv v u_lbm))
      uy_error in
  let* ux_error :=
    for_each (range (ny s))
      (fun e j => let* v := np_get3 (u s) 0 nx_mid j in
                  np_set1 e j (np_fdiv v u_lbm))
      ux_error in
  Ok (ux_error, uy_error).




(** ** Inlet profile ([Lattice.poiseuille], [Lattice.set_inlet_poiseuille]) *)

(** The boundary arrays of lines 108-112: [u_left] and [u_right] of shape
    [(2, ny)], [u_top] and [u_bot] of shape [(2, nx)], [rho_right] of
    length [ny]. *)
Record Walls : Type := mkWalls {
  u_left : list (list Q);
  u_right : list (list Q);
  u_top : list (list Q);
  u_bot : list (list Q);
  rho_right : list Q
}.

(** [a[:] = v]: every entry becomes [v], the shape stays. *)
Definition fill_all (a : list (list Q)) (v : Q) : list (list Q) :=
  map2d (fun _ => v) a.

(** [a[:, j] = v] for a vector [v] with one entry per row of [a]. *)
Definition np_set_col (a : list (list Q)) (j : Z) (v : list Q) : result (list (list Q)) :=
  let m := match a with r :: _ => List.length r | [] => 0%nat end in
  let* p := np_index (Z.of_nat m) j in
  if Nat.eqb (List.length a) (List.length v)
  then Ok (zip_with (fun row x => set_nth row p x) a v)
  else Raise ValueError.

Section FloatingPoint.

(** [math.exp] is no rational function, and the doubles round: [exp],
    the rounding [rnd] of one arithmetic result to a double and the square
    [sq] of a double ([x ** 2]) are parameters of the model, and what is
    proved holds for every choice of them that keeps zero at zero.  The
    identity and the exact square give exact arithmetic; with the rounding
    of doubles a tiny [sigma] has [sq sigma = 0]. *)
Variable exp : Q -> Q.
Variable rnd : Q -> Q.
Variable sq : Q -> Q.

(** Division of Python floats, rounded. *)
Definition fl_div (a b : Q) : result Q :=
  if Qeq_bool b 0 then Raise ZeroDivisionError else Ok (rnd (a / b)).

(** [poiseuille(pt, it, sigma)]: the parabolic profile across the
    channel, ramped up in time; [val] is the argument named [it]. *)
Definition poiseuille (s : Lattice) (pt : Q * Q) (val sigma : Q) : result (Q * Q) :=
  let y := snd pt in
  let H := rnd (y_max s - y_min s) in
  (* u[0] = 4.0 * (y_max - y) * (y - y_min) / H ** 2 *)
  let num := rnd (rnd (4 * rnd (y_max s - y)) * rnd (y - y_min s)) in
  let* u0 := fl_div num (sq H) in
  (* ret = 1.0 - math.exp(-val ** 2 / (2.0 * sigma ** 2)) *)
  let* e := fl_div (- sq val) (rnd (2 * sq sigma)) in
  let ret := rnd (1 - exp e) in
  (* u *= ret *)
  Ok (rnd (u0 * ret), rnd (0 * ret)).

Definition set_inlet_poiseuille (s : Lattice) (w : Walls)
    (u_lbm rho_lbm val sigma : Q) : result Walls :=
  let left0 := fill_all (u_left w) 0 in
  let right0 := fill_all (u_right w) 0 in
  let top0 := fill_all (u_top w) 0 in
  let bot0 := fill_all (u_bot w) 0 in
  let rho0 := map (fun _ => rho_lbm) (rho_right w) in
  let* left1 :=
    for_each (range (ny s))
      (fun ul j =>
         let* pt := lattice_coords s 0 j in
         let* v := poiseuille s pt val sigma in
         np_set_col ul j [rnd (u_lbm * fst v); rnd (u_lbm * snd v)])
      left0 in
  Ok (mkWalls left1 right0 top0 bot0 rho0).

End FloatingPoint.

(** A rounding or a square that keeps zero at zero. *)
Definition keeps_zero (f : Q -> Q) : Prop :=
  forall x : Q, (x == 0)%Q -> (f x == 0)%Q.

(** What the loop of [set_inlet_poiseuille] keeps of the inlet array: the
    transverse row is zero and the axial row is zero at the first node. *)
Definition inlet_state (a : list (list Q)) : Prop :=
  Forall (fun x => x == 0)%Q (nth 1 a [])
  /\ (nth 0 (nth 0 a []) 0 == 0)%Q.

(** ** Driven cavity ([Lattice.set_cavity]) *)

(** Assigning a vector to a slice of [k] entries: the lengths agree, or
    a single entry is repeated; anything else is a shape error. *)
Definition broadcast_to (k : nat) (v : list Q) : result (list Q) :=
  if Nat.eqb (List.length v) k then Ok v
  else match v with
       | [x] => Ok (repeat x k)
       | _ => Raise ValueError
       end.

(** [a[r, :] = v] for a scalar [v]. *)
Definition np_set_row_const (a : list (list Q)) (r : Z) (v : Q) : result (list (list Q)) :=
  let* p := np_index (Z.of_nat (List.length a)) r in
  match nth_error a p with
  | Some row => Ok (set_nth a p (map (fun _ => v) row))
  | None => Raise IndexError
  end.

(** Column [p] of a layer overwritten by [v], and row [p] likewise. *)
Definition col_assign (layer : list (list npfloat)) (p : nat) (v : list Q)
    : list (list npfloat) :=
  zip_with (fun row x => set_nth row p (Fin x)) layer v.

Definition row_assign (layer : list (list npfloat)) (p : nat) (v : list Q)
    : list (list npfloat) :=
  set_nth layer p (map Fin v).

(** [self.u[d, :, j] = v]; [u] has the shape [(2, nx, ny)] the constructor
    gave it, so the last axis has [ny] entries. *)
Definition u_set_col (s : Lattice) (uu : list (list (list npfloat))) (d j : Z) (v : list Q)
    : result (list (list (list npfloat))) :=
  let* pd := np_index (Z.of_nat (List.length uu)) d in
  match nth_error uu pd with
  | None => Raise IndexError
  | Some layer =>
      let* pj := np_index (ny s) j in
      let* vv := broadcast_to (List.length layer) v in
      Ok (set_nth uu pd (col_assign layer pj vv))
  end.

(** [self.u[d, i, :] = v] *)
Definition u_set_row (s : Lattice) (uu : list (list (list npfloat))) (d i : Z) (v : list Q)
    : result (list (list (list npfloat))) :=
  let* pd := np_index (Z.of_nat (List.length uu)) d in
  match nth_error uu pd with
  | None => Raise IndexError
  | Some layer =>
      let* pi := np_index (nx s) i in
      let* vv := broadcast_to (Z.to_nat (ny s)) v in
      Ok (set_nth uu pd (row_assign layer pi vv))
  end.

(** [set_cavity(ut, ub, ul, ur)]: the wall arrays, then the rim of [u] in
    the order top, bottom, left, right. *)
Definition set_cavity (s : Lattice) (w : Walls) (ut ub ul ur : Q) : result (Lattice * Walls) :=
  let left0 := fill_all (u_left w) 0 in
  let right0 := fill_all (u_right w) 0 in
  let top0 := fill_all (u_top w) 0 in
  let bot0 := fill_all (u_bot w) 0 in
  let* top1 := np_set_row_const top0 0 ut in
  let* bot1 := np_set_row_const bot0 0 ub in
  let* left1 := np_set_row_const left0 1 ul in
  let* right1 := np_set_row_const right0 1 ur in
  let* t0 := np_get top1 0 in
  let* uu := u_set_col s (u s) 0 (ly s) t0 in
  let* t1 := np_get top1 1 in
  let* uu := u_set_col s uu 1 (ly s) t1 in
  let* b0 := np_get bot1 0 in
  let* uu := u_set_col s uu 0 0 b0 in
  let* b1 := np_get bot1 1 in
  let* uu := u_set_col s uu 1 0 b1 in
  let* l0 := np_get left1 0 in
  let* uu := u_set_row s uu 0 0 l0 in
  let* l1 := np_get left1 1 in
  let* uu := u_set_row s uu 1 0 l1 in
  let* r0 := np_get right1 0 in
  let* uu := u_set_row s uu 0 (lx s) r0 in
  let* r1 := np_get right1 1 in
  let* uu := u_set_row s uu 1 (lx s) r1 in
  Ok (set_u s uu, mkWalls left1 right1 top1 bot1 (rho_right w)).

(** The state [set_cavity] expects: a grid with at least one node, [lx]
    and [ly] as the constructor set them, and velocity and wall arrays of
    the constructor's shapes. *)
Record cavity_ready (s : Lattice) (w : Walls) : Prop := {
  cr_nx : 1 <= nx s;
  cr_ny : 1 <= ny s;
  cr_lx : lx s = nx s - 1;
  cr_ly : ly s = ny s - 1;
  cr_u : exists l0 l1,
      u s = [l0; l1]
      /\ shape2 (Z.to_nat (nx s)) (Z.to_nat (ny s)) l0
      /\ shape2 (Z.to_nat (nx s)) (Z.to_nat (ny s)) l1;
  cr_left : shape2 2 (Z.to_nat (ny s)) (u_left w);
  cr_right : shape2 2 (Z.to_nat (ny s)) (u_right w);
  cr_top : shape2 2 (Z.to_nat (nx s)) (u_top w);
  cr_bot : shape2 2 (Z.to_nat (nx s)) (u_bot w)
}.

(** What [set_cavity] leaves at node [(i, j)] of a layer: the value of
    the right wall on the last column of nodes, else of the left wall on
    the first, else of the bottom wall on the first row, else of the top
    wall on the last row, else what was there. *)
Definition rim_value (s : Lattice) (right left bot top : Q) (old : option npfloat)
    (i j : nat) : option npfloat :=
  if Nat.eqb i (Z.to_nat (nx s - 1)) then Some (Fin right)
  else if Nat.eqb i 0 then Some (Fin left)
  else if Nat.eqb j 0 then Some (Fin bot)
  else if Nat.eqb j (Z.to_nat (ny s - 1)) then Some (Fin top)
  else old.

(** The boundary arrays the constructor builds for [grid3]. *)
Definition walls3 : Walls :=
  mkWalls (full2d 2 3 0%Q) (full2d 2 3 0%Q) (full2d 2 3 0%Q) (full2d 2 3 0%Q)
          (repeat 0%Q 3).

(** ** Facts on arrays *)

Lemma nth_error_zip_with {A B C : Type} (f : A -> B -> C) (a : list A) (b : list B) (i : nat) :
  nth_error (zip_with f a b) i =
  match nth_error a i, nth_error b i with
  | Some x, Some y => Some (f x y)
  | _, _ => None
  end.
Proof.
  revert b i; induction a as [| x a IH]; intros b i.
  - destruct i; reflexivity.
  - destruct b as [| y b]; destruct i as [| i]; simpl; try reflexivity.
    + destruct (nth_error a i); reflexivity.
    + apply IH.
Qed.

Lemma cell_zip2d {A B C : Type} (f : A -> B -> C) (a : list (list A)) (b : list (list B)) (i j : nat) :
  cell (zip2d f a b) i j =
  match cell a i j, cell b i j with
  | Some x, Some y => Some (f x y)
  | _, _ => None
  end.
Proof.
  unfold cell, zip2d.
  rewrite nth_error_zip_with.
  destruct (nth_error a i) as [ra |]; [| reflexivity].
  destruct (nth_error b i) as [rb |].
  - apply nth_error_zip_with.
  - destruct (nth_error ra j); reflexivity.
Qed.

Lemma cell_map2d {A B : Type} (f : A -> B) (a : list (list A)) (i j : nat) :
  cell (map2d f a) i j = option_map f (cell a i j).
Proof.
  unfold cell, map2d.
  rewrite nth_error_map.
  destruct (nth_error a i) as [ra |]; simpl; [| reflexivity].
  apply nth_error_map.
Qed.

Lemma cell_full2d {A : Type} (n m : nat) (v : A) (i j : nat) :
  (i < n)%nat -> (j < m)%nat -> cell (full2d n m v) i j = Some v.
Proof.
  intros Hi Hj. unfold cell, full2d.
  rewrite nth_error_repeat by exact Hi.
  apply nth_error_repeat; exact Hj.
Qed.

Lemma shape2_cell {A : Type} (n m : nat) (a : list (list A)) (i j : nat) :
  shape2 n m a -> (i < n)%nat -> (j < m)%nat -> exists x, cell a i j = Some x.
Proof.
  intros [Hn Hm] Hi Hj. unfold cell.
  destruct (nth_error a i) as [row |] eqn:Hrow.
  - rewrite Forall_forall in Hm.
    specialize (Hm row (nth_error_In _ _ Hrow)).
    destruct (nth_error row j) as [x |] eqn:Hx; [exists x; reflexivity |].
    apply nth_error_None in Hx. lia.
  - apply nth_error_None in Hrow. lia.
Qed.

Lemma nth_error_set_nth_eq {A : Type} (a : list A) (i : nat) (v : A) :
  (i < List.length a)%nat -> nth_error (set_nth a i v) i = Some v.
Proof.
  revert i; induction a as [| x a IH]; intros i Hi; simpl in *; [lia |].
  destruct i as [| i]; simpl; [reflexivity |].
  apply IH; lia.
Qed.

Lemma nth_error_set_nth_ne {A : Type} (a : list A) (i k : nat) (v : A) :
  i <> k -> nth_error (set_nth a i v) k = nth_error a k.
Proof.
  revert i k; induction a as [| x a IH]; intros i k Hik; simpl.
  - destruct i; reflexivity.
  - destruct i as [| i]; destruct k as [| k]; simpl; try reflexivity; try lia.
    apply IH; lia.
Qed.

Lemma length_set_nth {A : Type} (a : list A) (i : nat) (v : A) :
  List.length (set_nth a i v) = List.length a.
Proof.
  revert i; induction a as [| x a IH]; intros i; [destruct i; reflexivity |].
  destruct i; simpl; [reflexivity | now rewrite IH].
Qed.

Lemma cell_fold_add2d (i j : nat) (layers : list (list (list Q))) :
  forall (acc : list (list Q)) (a : Q),
    cell acc i j = Some a ->
    Forall (has_cell i j) layers ->
    cell (fold_left add2d layers acc) i j
    = Some (fold_left Qplus (column layers i j) a).
Proof.
  induction layers as [| l layers IH]; intros acc a Hacc Hall; simpl.
  - exact Hacc.
  - inversion Hall as [| ? ? Hl Hrest]; subst.
    unfold has_cell in Hl.
    destruct (cell l i j) as [x |] eqn:Hx; [| contradiction].
    apply IH; [| exact Hrest].
    unfold add2d. rewrite cell_zip2d, Hacc, Hx. reflexivity.
Qed.

Lemma has_cell_shape (n m i j : nat) (layers : list (list (list Q))) :
  Forall (shape2 n m) layers -> (i < n)%nat -> (j < m)%nat ->
  Forall (has_cell i j) layers.
Proof.
  intros Hall Hi Hj.
  eapply Forall_impl; [| exact Hall].
  intros l Hl. unfold has_cell.
  destruct (shape2_cell n m l i j Hl Hi Hj) as [x ->]. discriminate.
Qed.

Lemma cell_sum_axis0 (n m i j : nat) (layers : list (list (list Q))) :
  Forall (has_cell i j) layers -> (i < n)%nat -> (j < m)%nat ->
  cell (sum_axis0 n m layers) i j = Some (D2Q9.sum_Q (column layers i j)).
Proof.
  intros Hall Hi Hj. unfold sum_axis0, D2Q9.sum_Q.
  apply cell_fold_add2d; [apply cell_full2d; assumption | exact Hall].
Qed.

Lemma scaled_layers (i j : nat) (v : list Z) :
  forall layers : list (list (list Q)),
    Forall (has_cell i j) layers ->
    Forall (has_cell i j) (zip_with scale2d v layers)
    /\ column (zip_with scale2d v layers) i j
       = zip_with (fun k y => inject_Z k * y)%Q v (column layers i j).
Proof.
  induction v as [| k v IH]; intros layers Hall; simpl.
  - split; [constructor | reflexivity].
  - destruct layers as [| l layers]; simpl; [split; [constructor | reflexivity] |].
    inversion Hall as [| ? ? Hl Hrest]; subst.
    destruct (IH layers Hrest) as [IH1 IH2].
    unfold has_cell in Hl.
    assert (Hs : cell (scale2d k l) i j = option_map (Qmult (inject_Z k)) (cell l i j))
      by apply cell_map2d.
    destruct (cell l i j) as [x |] eqn:Hx; [| contradiction].
    simpl in Hs. split.
    + constructor; [unfold has_cell; rewrite Hs; discriminate | exact IH1].
    + rewrite Hs, IH2. reflexivity.
Qed.

Lemma cell_tensordot (n m i j : nat) (v : list Z) (layers : list (list (list Q))) :
  Forall (has_cell i j) layers -> (i < n)%nat -> (j < m)%nat ->
  cell (tensordot n m v layers) i j = Some (dot v (column layers i j)).
Proof.
  intros Hall Hi Hj. unfold tensordot, dot.
  destruct (scaled_layers i j v layers Hall) as [H1 H2].
  rewrite cell_sum_axis0 by assumption.
  now rewrite H2.
Qed.

(** What [macro] leaves at one cell of the grid, whatever its tag. *)
Lemma macro_cell (s : Lattice) (i j : nat) :
  wf_grid s -> (i < Z.to_nat (nx s))%nat -> (j < Z.to_nat (ny s))%nat ->
  let col := column (g s) i j in
  cell (rho (macro s)) i j = Some (D2Q9.sum_Q col)
  /\ u_at (macro s) 0 i j = Some (np_div (dot D2Q9.c_x col) (D2Q9.sum_Q col))
  /\ u_at (macro s) 1 i j = Some (np_div (dot D2Q9.c_y col) (D2Q9.sum_Q col)).
Proof.
  intros Hwf Hi Hj col.
  destruct Hwf as [_ _ [_ Hg] Hu _].
  pose proof (has_cell_shape _ _ i j _ Hg Hi Hj) as Hcells.
  pose proof (cell_sum_axis0 _ _ i j _ Hcells Hi Hj) as Hrho.
  pose proof (cell_tensordot _ _ i j D2Q9.c_x _ Hcells Hi Hj) as Hx.
  pose proof (cell_tensordot _ _ i j D2Q9.c_y _ Hcells Hi Hj) as Hy.
  unfold macro, u_at; cbn [u rho g nx ny set_u set_rho].
  split; [exact Hrho |].
  split.
  - rewrite nth_error_set_nth_ne by discriminate.
    rewrite nth_error_set_nth_eq by lia.
    rewrite cell_zip2d, Hx, Hrho. reflexivity.
  - rewrite nth_error_set_nth_eq by (rewrite length_set_nth; lia).
    rewrite cell_zip2d, Hy, Hrho. reflexivity.
Qed.

(** ** The stencil constants *)

(** C7: the opposite-direction array is an involution on the nine
    directions, [ns[ns[q]] = q] for every [q] in [0..8], and it fixes the
    rest direction, [ns[0] = 0]. *)
Theorem ns_involution :
  (forall k : Z, 0 <= k <= 8 ->
     (let* k' := D2Q9.ns_at k in D2Q9.ns_at k') = Ok k)
  /\ D2Q9.ns_at 0 = Ok 0.
Proof.
  split; [| reflexivity].
  intros k Hk.
  assert (Hcases : k = 0 \/ k = 1 \/ k = 2 \/ k = 3 \/ k = 4
                   \/ k = 5 \/ k = 6 \/ k = 7 \/ k = 8) by lia.
  repeat (destruct Hcases as [-> | Hcases]; [reflexivity |]).
  subst k; reflexivity.
Qed.

Lemma ns_involution_witness :
  (let* k' := D2Q9.ns_at 5 in D2Q9.ns_at k') = Ok 5.
Proof.
  apply (proj1 ns_involution 5). lia.
Defined.

(** C8: the weights are [4/9] at the rest direction, [1/9] on the four
    axis directions [1..4], [1/36] on the four diagonals [5..8], and they
    sum to one. *)
Theorem weights_d2q9 :
  D2Q9.w_at 0 = (4 / 9)%Q
  /\ Forall (fun k => D2Q9.w_at k = (1 / 9)%Q) [1; 2; 3; 4]%nat
  /\ Forall (fun k => D2Q9.w_at k = (1 / 36)%Q) [5; 6; 7; 8]%nat
  /\ (D2Q9.sum_Q D2Q9.w == 1)%Q
  /\ List.length D2Q9.w = 9%nat.
Proof.
  split; [reflexivity |].
  split; [repeat constructor |].
  split; [repeat constructor |].
  split; reflexivity.
Qed.

(** ** The macroscopic update *)

Lemma np_div_nonzero (a b : Q) : ~ (b == 0)%Q -> np_div a b = Fin (a / b).
Proof.
  intros Hb. unfold np_div.
  destruct (Qeq_bool b 0) eqn:E; [| reflexivity].
  apply Qeq_bool_eq in E. contradiction.
Qed.

Lemma wf_two_cells (v : Q) : wf_grid (two_cells v).
Proof.
  constructor; cbn; try lia; try reflexivity.
  - split; [reflexivity |].
    repeat constructor.
  - repeat constructor.
Qed.

(** C1: when the density that [macro] computes is non-zero everywhere,
    every cell of the grid, and so every fluid cell, ends with
    [rho = Sum_q g[q]], [u_x = (Sum_q c_x[q] g[q]) / rho] and
    [u_y = (Sum_q c_y[q] g[q]) / rho], the quotients being finite. *)
Theorem macro_sets_moments (s : Lattice) (i j : nat) :
  wf_grid s ->
  (forall (i' j' : nat) (r : Q), cell (rho (macro s)) i' j' = Some r -> ~ (r == 0)%Q) ->
  (i < Z.to_nat (nx s))%nat -> (j < Z.to_nat (ny s))%nat ->
  exists r : Q,
    cell (rho (macro s)) i j = Some r
    /\ r = D2Q9.sum_Q (column (g s) i j)
    /\ u_at (macro s) 0 i j = Some (Fin (dot D2Q9.c_x (column (g s) i j) / r))
    /\ u_at (macro s) 1 i j = Some (Fin (dot D2Q9.c_y (column (g s) i j) / r)).
Proof.
  intros Hwf Hrho Hi Hj.
  destruct (macro_cell s i j Hwf Hi Hj) as (Hr & Hx & Hy).
  exists (D2Q9.sum_Q (column (g s) i j)).
  specialize (Hrho i j _ Hr).
  split; [exact Hr |].
  split; [reflexivity |].
  rewrite Hx, Hy.
  now rewrite !np_div_nonzero by exact Hrho.
Qed.

Lemma macro_sets_moments_witness :
  is_fluid (two_cells 1) 0 0
  /\ exists r : Q,
       cell (rho (macro (two_cells 1))) 0 0 = Some r
       /\ r = D2Q9.sum_Q (column (g (two_cells 1)) 0 0)
       /\ u_at (macro (two_cells 1)) 0 0 0
          = Some (Fin (dot D2Q9.c_x (column (g (two_cells 1)) 0 0) / r))
       /\ u_at (macro (two_cells 1)) 1 0 0
          = Some (Fin (dot D2Q9.c_y (column (g (two_cells 1)) 0 0) / r)).
Proof.
  split; [reflexivity |].
  apply (macro_sets_moments (two_cells 1) 0 0).
  - apply wf_two_cells.
  - intros i' j' r Hr.
    destruct i' as [| i'].
    + destruct j' as [| [| j']]; vm_compute in Hr;
        [injection Hr as <-; intros H; inversion H
        | injection Hr as <-; intros H; inversion H
        | destruct j'; discriminate].
    + destruct i'; vm_compute in Hr; discriminate.
  - cbn; lia.
  - cbn; lia.
Defined.

(** C2, as the specification has it, fails: two states that agree on the
    fluid cell and differ on the obstacle cell get different densities,
    because [macro] sums every cell of the grid. *)
Lemma macro_reads_obstacle_cells :
  wf_grid (two_cells 1) /\ wf_grid (two_cells 2)
  /\ lattice (two_cells 1) = lattice (two_cells 2)
  /\ agree_on_fluid (two_cells 1) (two_cells 2)
  /\ is_obstacle (two_cells 1) 0 1
  /\ cell (rho (macro (two_cells 1))) 0 1 = Some 9%Q
  /\ cell (rho (macro (two_cells 2))) 0 1 = Some 18%Q
  /\ rho (macro (two_cells 1)) <> rho (macro (two_cells 2)).
Proof.
  repeat split; try apply wf_two_cells.
  - intros i j Hf. unfold is_fluid in Hf.
    destruct i as [| i].
    + destruct j as [| [| j]]; [reflexivity | discriminate Hf | ].
      destruct j; discriminate Hf.
    + destruct i; discriminate Hf.
  - exists 1. split; [reflexivity | lia].
  - vm_compute. discriminate.
Qed.

Lemma fluid_in_range (s : Lattice) (i j : nat) :
  wf_grid s -> is_fluid s i j ->
  (i < Z.to_nat (nx s))%nat /\ (j < Z.to_nat (ny s))%nat.
Proof.
  intros Hwf Hf. destruct Hwf as [_ _ _ _ [Hn Hm]].
  unfold is_fluid, cell in Hf.
  destruct (nth_error (lattice s) i) as [row |] eqn:Hrow; [| discriminate].
  rewrite Forall_forall in Hm.
  specialize (Hm row (nth_error_In _ _ Hrow)).
  split.
  - rewrite <- Hn. apply nth_error_Some. congruence.
  - rewrite <- Hm. apply nth_error_Some. congruence.
Qed.

(** C2, amended: [macro] is local.  Two states of the same extents whose
    [g] arrays agree at every fluid cell get the same density and the same
    velocity at every fluid cell; nothing is said of the obstacle cells. *)
Theorem macro_agrees_on_fluid (s1 s2 : Lattice) (i j : nat) :
  wf_grid s1 -> wf_grid s2 ->
  nx s1 = nx s2 -> ny s1 = ny s2 ->
  agree_on_fluid s1 s2 ->
  is_fluid s1 i j ->
  cell (rho (macro s1)) i j = cell (rho (macro s2)) i j
  /\ u_at (macro s1) 0 i j = u_at (macro s2) 0 i j
  /\ u_at (macro s1) 1 i j = u_at (macro s2) 1 i j.
Proof.
  intros Hwf1 Hwf2 Hnx Hny Hagree Hf.
  destruct (fluid_in_range s1 i j Hwf1 Hf) as [Hi Hj].
  destruct (macro_cell s1 i j Hwf1 Hi Hj) as (Hr1 & Hx1 & Hy1).
  rewrite Hnx in Hi. rewrite Hny in Hj.
  destruct (macro_cell s2 i j Hwf2 Hi Hj) as (Hr2 & Hx2 & Hy2).
  rewrite Hr1, Hx1, Hy1, Hr2, Hx2, Hy2.
  rewrite (Hagree i j Hf).
  repeat split.
Qed.

Lemma macro_agrees_on_fluid_witness :
  cell (rho (macro (two_cells 1))) 0 0 = cell (rho (macro (two_cells 2))) 0 0
  /\ u_at (macro (two_cells 1)) 0 0 0 = u_at (macro (two_cells 2)) 0 0 0
  /\ u_at (macro (two_cells 1)) 1 0 0 = u_at (macro (two_cells 2)) 1 0 0.
Proof.
  apply (macro_agrees_on_fluid (two_cells 1) (two_cells 2) 0 0);
    try apply wf_two_cells; try reflexivity.
  intros i j Hf. unfold is_fluid in Hf.
  destruct i as [| i].
  - destruct j as [| [| j]]; [reflexivity | discriminate Hf | ].
    destruct j; discriminate Hf.
  - destruct i; discriminate Hf.
Defined.

(** ** The stop check *)

Lemma check_stop_returns_flag (s : Lattice) :
  fst (check_stop s) = compute (snd (check_stop s)).
Proof. reflexivity. Qed.

Lemma check_stop_keeps_flag (s : Lattice) :
  compute s = true -> compute (snd (check_stop s)) = true.
Proof.
  intros Hc. unfold check_stop.
  destruct (String.eqb (stop s) "it"); [destruct (it s >? it_max s) |];
    cbn [stop set_compute];
    (destruct (String.eqb (stop s) "obs");
     [destruct (_ && _) |]); cbn; auto.
Qed.

Lemma later_keeps_flag (s s' : Lattice) :
  later s s' -> compute s = true -> compute s' = true.
Proof.
  induction 1 as [s | s s' _ IH | s s' s'' _ IH Heq]; intros Hc.
  - exact Hc.
  - apply check_stop_keeps_flag, IH, Hc.
  - rewrite Heq. apply IH, Hc.
Qed.

(** C3, as the specification has it, fails on both counts: with the
    counter exactly at [it_max] the call in mode ['it'] answers false, and
    a state whose flag is already set answers true though its counter is
    far below [it_max]. *)
Lemma check_stop_not_at_it_max :
  (stop at_it_max = "it"%string
   /\ it at_it_max >= it_max at_it_max
   /\ fst (check_stop at_it_max) = false)
  /\ (stop (set_compute (grid3 false) true) = "it"%string
      /\ it (set_compute (grid3 false) true) < it_max (set_compute (grid3 false) true)
      /\ fst (check_stop (set_compute (grid3 false) true)) = true).
Proof.
  repeat split; cbn; lia.
Qed.

(** C3, amended: while no earlier call has signalled termination, the
    call answers true in mode ['it'] exactly when the counter, as it was
    before the call, is strictly greater than [it_max], and in mode
    ['obs'] exactly when the drag and the lift buffer both report
    convergence. *)
Theorem check_stop_criterion (s : Lattice) :
  compute s = false ->
  (stop s = "it"%string -> (fst (check_stop s) = true <-> it s > it_max s))
  /\ (stop s = "obs"%string ->
      (fst (check_stop s) = true <-> drag_obs_cv s = true /\ lift_obs_cv s = true)).
Proof.
  intros Hc. split; intros Hstop; unfold check_stop; rewrite Hstop; cbn [String.eqb Ascii.eqb Bool.eqb].
  - destruct (it s >? it_max s) eqn:E; cbn; rewrite ?Hstop; cbn.
    + split; [intros _; lia | reflexivity].
    + rewrite Hc. split; [discriminate | intros; lia].
  - rewrite Hstop; cbn [String.eqb Ascii.eqb Bool.eqb].
    destruct (drag_obs_cv s) eqn:Ed; destruct (lift_obs_cv s) eqn:El; cbn;
      rewrite ?Hc; split; try tauto; try discriminate;
      intros [? ?]; discriminate.
Qed.

Lemma check_stop_criterion_witness :
  (fst (check_stop (set_it (grid3 false) 1001)) = true
   <-> it (set_it (grid3 false) 1001) > it_max (set_it (grid3 false) 1001)).
Proof.
  apply (proj1 (check_stop_criterion (set_it (grid3 false) 1001) eq_refl)).
  reflexivity.
Defined.

(** C10: every call adds one to the iteration counter, and once a call
    has answered true every later call answers true, whatever has become
    of the stop mode, the counter, [it_max] and the buffers in between. *)
Theorem check_stop_monotone :
  (forall s : Lattice, it (snd (check_stop s)) = it s + 1)
  /\ (forall s s' : Lattice,
        fst (check_stop s) = true ->
        later (snd (check_stop s)) s' ->
        fst (check_stop s') = true).
Proof.
  split.
  - intros s. unfold check_stop.
    destruct (String.eqb (stop s) "it"); [destruct (it s >? it_max s) |];
      cbn [stop set_compute];
      (destruct (String.eqb (stop s) "obs");
       [destruct (_ && _) |]); reflexivity.
  - intros s s' Htrue Hlater.
    rewrite check_stop_returns_flag in *.
    apply check_stop_keeps_flag.
    exact (later_keeps_flag _ _ Hlater Htrue).
Qed.

Lemma check_stop_monotone_witness :
  fst (check_stop
         (set_it (snd (check_stop (set_it (grid3 false) 1001))) 0)) = true.
Proof.
  apply (proj2 check_stop_monotone (set_it (grid3 false) 1001)).
  - reflexivity.
  - apply later_env with (s' := snd (check_stop (set_it (grid3 false) 1001))).
    + apply later_refl.
    + reflexivity.
Defined.

(** ** Point in polygon *)


(** ** Construction *)

Lemma py_div_nonzero (a b : Q) : ~ (b == 0)%Q -> py_div a b = Ok (a / b)%Q.
Proof.
  intros Hb. unfold py_div.
  destruct (Qeq_bool b 0) eqn:E; [| reflexivity].
  apply Qeq_bool_eq in E. contradiction.
Qed.


(** The second relaxation time vanishes only with the first. *)
Lemma tau_m_nonzero (tau : Q) :
  ~ (tau == 0)%Q -> ~ (tau - 1 / 2 == 0)%Q ->
  ~ ((1 / 4) / (tau - 1 / 2) + 1 / 2 == 0)%Q.
Proof.
  intros Ht Hd Hm. apply Ht.
  assert (E : (tau == ((1 / 4) / (tau - 1 / 2) + 1 / 2) * (2 * (tau - 1 / 2)))%Q)
    by (field; intros H; apply Hd;
        assert (E2 : (tau - 1 / 2 == (tau * 2 - 1) * (1 # 2))%Q) by field;
        rewrite E2, H; reflexivity).
  rewrite E, Hm. ring.
Qed.

Lemma shape2_full2d {A : Type} (n m : nat) (v : A) : shape2 n m (full2d n m v).
Proof.
  split; unfold full2d.
  - apply repeat_length.
  - apply Forall_forall. intros row Hrow.
    apply repeat_spec in Hrow. subst row. apply repeat_length.
Qed.



(** ** Loops that may raise *)

Lemma bind_ok {A B : Type} (r : result A) (k : A -> result B) (b : B) :
  bind r k = Ok b -> exists a, r = Ok a /\ k a = Ok b.
Proof.
  destruct r as [a | e]; cbn; [| discriminate].
  intros H. exists a. split; [reflexivity | exact H].
Qed.

Lemma for_each_inv {A S : Type} (P : S -> Prop) (body : S -> A -> result S) (l : list A) :
  (forall s x s', In x l -> P s -> body s x = Ok s' -> P s') ->
  forall s s', P s -> for_each l body s = Ok s' -> P s'.
Proof.
  induction l as [| x l IH]; intros Hbody s s' Hs Hrun; cbn in Hrun.
  - injection Hrun as <-. exact Hs.
  - apply bind_ok in Hrun as (s1 & H1 & H2).
    apply (IH (fun s x s' Hin => Hbody s x s' (or_intror Hin)) s1 s');
      [| exact H2].
    exact (Hbody s x s1 (or_introl eq_refl) Hs H1).
Qed.

Lemma for_each_ok {A S : Type} (P : S -> Prop) (body : S -> A -> result S) (l : list A) :
  (forall s x, In x l -> P s -> exists s', body s x = Ok s' /\ P s') ->
  forall s, P s -> exists s', for_each l body s = Ok s' /\ P s'.
Proof.
  induction l as [| x l IH]; intros Hbody s Hs; cbn.
  - exists s. split; [reflexivity | exact Hs].
  - destruct (Hbody s x (or_introl eq_refl) Hs) as (s1 & H1 & Hs1).
    rewrite H1. cbn.
    apply IH; [| exact Hs1].
    intros s0 x0 Hin. apply Hbody. right. exact Hin.
Qed.

(** ** numpy indexing *)

Lemma np_index_in_range (n k : Z) :
  0 <= k < n -> np_index n k = Ok (Z.to_nat k).
Proof.
  intros Hk. unfold np_index.
  replace (0 <=? k) with true by (symmetry; apply Z.leb_le; lia).
  replace (k <? n) with true by (symmetry; apply Z.ltb_lt; lia).
  reflexivity.
Qed.

Lemma np_index_wraps (n k : Z) :
  - n <= k < 0 -> np_index n k = np_index n (n + k).
Proof.
  intros Hk. unfold np_index.
  replace (0 <=? k) with false by (symmetry; apply Z.leb_gt; lia).
  replace (- n <=? k) with true by (symmetry; apply Z.leb_le; lia).
  replace (k <? 0) with true by (symmetry; apply Z.ltb_lt; lia).
  replace (0 <=? n + k) with true by (symmetry; apply Z.leb_le; lia).
  replace (n + k <? n) with true by (symmetry; apply Z.ltb_lt; lia).
  reflexivity.
Qed.

Lemma np_index_out_of_range (n k : Z) :
  n <= k \/ k < - n -> np_index n k = Raise IndexError.
Proof.
  intros Hk. unfold np_index.
  destruct ((0 <=? k) && (k <? n)) eqn:E1.
  - apply andb_true_iff in E1 as [H1 H2].
    apply Z.leb_le in H1. apply Z.ltb_lt in H2. lia.
  - destruct ((- n <=? k) && (k <? 0)) eqn:E2; [| reflexivity].
    apply andb_true_iff in E2 as [H1 H2].
    apply Z.leb_le in H1. apply Z.ltb_lt in H2. lia.
Qed.

Lemma np_get_in_range {A : Type} (a : list A) (k : Z) :
  0 <= k < Z.of_nat (List.length a) -> exists x, np_get a k = Ok x.
Proof.
  intros Hk. unfold np_get.
  rewrite np_index_in_range by exact Hk. cbn.
  destruct (nth_error a (Z.to_nat k)) as [x |] eqn:E; [exists x; reflexivity |].
  apply nth_error_None in E. lia.
Qed.

Lemma np_get_In {A : Type} (a : list A) (k : Z) (x : A) :
  np_get a k = Ok x -> In x a.
Proof.
  unfold np_get. intros H.
  apply bind_ok in H as (p & _ & H).
  destruct (nth_error a p) as [y |] eqn:E; [| discriminate].
  injection H as <-. exact (nth_error_In _ _ E).
Qed.

Lemma np_get2_in_range {A : Type} (n m : nat) (a : list (list A)) (i j : Z) :
  shape2 n m a -> 0 <= i < Z.of_nat n -> 0 <= j < Z.of_nat m ->
  exists x, np_get2 a i j = Ok x.
Proof.
  intros [Hn Hm] Hi Hj. unfold np_get2.
  destruct (np_get_in_range a i) as [row Hrow]; [lia |].
  rewrite Hrow. cbn.
  apply np_get_in_range.
  rewrite Forall_forall in Hm.
  rewrite (Hm row (np_get_In _ _ _ Hrow)). exact Hj.
Qed.

Lemma Forall_set_nth {A : Type} (P : A -> Prop) (a : list A) (i : nat) (v : A) :
  Forall P a -> P v -> Forall P (set_nth a i v).
Proof.
  intros Ha Hv. revert i.
  induction Ha as [| x a Hx Ha IH]; intros i; cbn.
  - destruct i; constructor.
  - destruct i; constructor; auto.
Qed.

Lemma np_set2_shape {A : Type} (n m : nat) (a a' : list (list A)) (i j : Z) (v : A) :
  shape2 n m a -> np_set2 a i j v = Ok a' -> shape2 n m a'.
Proof.
  intros [Hn Hm] H. unfold np_set2 in H.
  apply bind_ok in H as (p & _ & H).
  destruct (nth_error a p) as [row |] eqn:Hrow; [| discriminate].
  apply bind_ok in H as (pj & _ & H).
  injection H as <-.
  split.
  - now rewrite length_set_nth.
  - apply Forall_set_nth; [exact Hm |].
    rewrite length_set_nth.
    rewrite Forall_forall in Hm.
    exact (Hm row (nth_error_In _ _ Hrow)).
Qed.

(** ** Boundary extraction *)

Lemma fill_cell_shape (n m : nat) (s : Lattice) (poly : list (Q * Q))
    (bnds : Q * Q * Q * Q) (t i j : Z) (acc acc' : list (list Z) * list (Z * Z)) :
  shape2 n m (fst acc) -> fill_cell s poly bnds t i acc j = Ok acc' ->
  shape2 n m (fst acc').
Proof.
  destruct bnds as [[[b0 b1] b2] b3]. destruct acc as [lat0 obs0].
  unfold fill_cell. intros Hs H.
  apply bind_ok in H as (pt & _ & H).
  destruct (_ && _); [| injection H as <-; exact Hs].
  destruct (is_inside poly pt); [| injection H as <-; exact Hs].
  apply bind_ok in H as (lat' & Hset & H).
  injection H as <-. cbn.
  exact (np_set2_shape _ _ _ _ _ _ _ Hs Hset).
Qed.

Lemma fill_shape (n m : nat) (s : Lattice) (poly : list (Q * Q))
    (bnds : Q * Q * Q * Q) (t : Z) (lat : list (list Z)) (obstacle : list (Z * Z)) :
  shape2 n m (lattice s) -> fill s poly bnds t = Ok (lat, obstacle) ->
  shape2 n m lat.
Proof.
  intros Hs H. unfold fill in H.
  apply (for_each_inv (fun acc => shape2 n m (fst acc)) _ _) in H; [exact H | | exact Hs].
  intros acc i acc' _ Hacc Hrow.
  apply (for_each_inv (fun acc => shape2 n m (fst acc)) _ _) in Hrow;
    [exact Hrow | | exact Hacc].
  intros a j a' _ Ha Hcell.
  exact (fill_cell_shape _ _ _ _ _ _ _ _ _ _ Ha Hcell).
Qed.

(** The eight directions looked at: each has an opposite, and a velocity
    with components in [-1 .. 1]. *)
Lemma direction_step (q : Z) :
  In q (range2 1 9) ->
  exists qb cq,
    np_get D2Q9.ns q = Ok qb /\ np_get D2Q9.c q = Ok cq
    /\ -1 <= fst cq <= 1 /\ -1 <= snd cq <= 1.
Proof.
  intros H. vm_compute in H.
  repeat (destruct H as [<- | H];
          [eexists; eexists; split; [reflexivity |];
           split; [reflexivity |]; cbn; lia |]).
  contradiction.
Qed.

Lemma build_boundary_interior (n m : nat) (lat : list (list Z)) (obstacle : list (Z * Z)) :
  shape2 n m lat ->
  Forall (interior (Z.of_nat n) (Z.of_nat m)) obstacle ->
  exists bnd, build_boundary lat obstacle = Ok bnd.
Proof.
  intros Hs Hint. unfold build_boundary.
  destruct (for_each_ok (fun _ => True)
              (fun bnd ij => for_each (range2 1 9) (boundary_dir lat ij) bnd)
              obstacle) with (s := @nil (Z * Z * Z)) as (bnd & Hb & _);
    [| exact I | exists bnd; exact Hb].
  intros bnd ij Hin _.
  rewrite Forall_forall in Hint. destruct (Hint ij Hin) as [Hi Hj].
  apply for_each_ok; [| exact I].
  intros b q Hq _.
  destruct (direction_step q Hq) as (qb & cq & Hqb & Hcq & Hx & Hy).
  unfold boundary_dir. rewrite Hqb, Hcq. cbn [bind].
  destruct (np_get2_in_range n m lat (fst ij + fst cq) (snd ij + snd cq) Hs)
    as [v Hv]; [lia | lia |].
  rewrite Hv. cbn [bind].
  destruct (v =? 0); eexists; split; try reflexivity; exact I.
Qed.

(** C9: the neighbour [(i + c_x[q], j + c_y[q])] of a tagged cell is read
    without a bounds check.  (a) When the cells tagged by the fill all lie
    strictly inside the grid, every such index is in range and the
    extraction goes through.  (b) The square over the top-right corner
    tags the node [(1, 2)] of the last column, and the read at [(1, 3)]
    raises [IndexError].  (c) Index [-1] is accepted and reads the last row
    or column: the square over the bottom-left corner records the node
    [(-1, 0)] because the node [(2, 0)] of the opposite edge is fluid, and
    no longer does once that node carries a tag. *)
Theorem boundary_reads_unchecked :
  (forall (s : Lattice) (poly : list (Q * Q)) (bnds : Q * Q * Q * Q) (t : Z)
          (lat : list (list Z)) (obstacle : list (Z * Z)),
      wf_grid s ->
      fill s poly bnds t = Ok (lat, obstacle) ->
      Forall (interior (nx s) (ny s)) obstacle ->
      (forall ij q cq,
          In ij obstacle -> In q (range2 1 9) -> np_get D2Q9.c q = Ok cq ->
          0 <= fst ij + fst cq < nx s /\ 0 <= snd ij + snd cq < ny s)
      /\ exists bnd, build_boundary lat obstacle = Ok bnd)
  /\ (forall sqrt : Q -> Q,
        (exists lat obstacle,
            fill (grid3 false) square_top_right (1 # 4, 3 # 2, 1 # 4, 3 # 2) 1
            = Ok (lat, obstacle)
            /\ In (1, 2) obstacle
            /\ np_get2 lat (1 + 0) (2 + 1) = Raise IndexError)
        /\ add_obstacle sqrt (grid3 false) square_top_right 1 = Raise IndexError)
  /\ (forall (n m : nat) (lat : list (list Z)) (i j : Z),
        shape2 n m lat ->
        ((0 < n)%nat -> np_get2 lat (-1) j = np_get2 lat (Z.of_nat n - 1) j)
        /\ ((0 < m)%nat -> 0 <= i < Z.of_nat n ->
            np_get2 lat i (-1) = np_get2 lat i (Z.of_nat m - 1)))
  /\ (forall sqrt : Q -> Q,
        (exists s', add_obstacle sqrt (grid3 false) square_bottom_left 1 = Ok s'
                    /\ has_row (-1, 0, 1) (last_boundary s') = true)
        /\ (exists s', add_obstacle sqrt grid3_edge_tagged square_bottom_left 1 = Ok s'
                       /\ has_row (-1, 0, 1) (last_boundary s') = false)).
Proof.
  split; [| split; [| split]].
  - intros s poly bnds t lat obstacle Hwf Hfill Hint.
    destruct Hwf as [Hnx Hny _ _ Hlat].
    split.
    + intros ij q cq Hin Hq Hcq.
      destruct (direction_step q Hq) as (qb & cq' & _ & Hcq' & Hx & Hy).
      rewrite Hcq in Hcq'. injection Hcq' as <-.
      rewrite Forall_forall in Hint. destruct (Hint ij Hin) as [Hi Hj].
      lia.
    + apply (build_boundary_interior (Z.to_nat (nx s)) (Z.to_nat (ny s))).
      * exact (fill_shape _ _ _ _ _ _ _ _ Hlat Hfill).
      * rewrite !Z2Nat.id by assumption. exact Hint.
  - intros sqrt. split.
    + eexists. eexists. split; [vm_compute; reflexivity |].
      split; [cbn; tauto | reflexivity].
    + reflexivity.
  - intros n m lat i j [Hn Hm]. split.
    + intros Hpos. unfold np_get2, np_get.
      rewrite np_index_wraps by lia.
      replace (Z.of_nat (List.length lat) + -1) with (Z.of_nat n - 1) by lia.
      rewrite Hn. reflexivity.
    + intros Hpos Hi. unfold np_get2.
      destruct (np_get_in_range lat i) as [row Hrow]; [lia |].
      rewrite Hrow. cbn [bind]. unfold np_get.
      rewrite Forall_forall in Hm.
      rewrite (Hm row (np_get_In _ _ _ Hrow)).
      rewrite np_index_wraps by lia.
      replace (Z.of_nat m + -1) with (Z.of_nat m - 1) by lia.
      reflexivity.
  - intros sqrt. split.
    + eexists. split; [vm_compute; reflexivity | reflexivity].
    + eexists. split; [vm_compute; reflexivity | reflexivity].
Qed.

(** The sample grid is what the constructor builds for [nx = ny = 3]. *)
Lemma grid3_is_constructed (b : bool) :
  init (mkConfig 0 1 0 1 3 3 1 1 1 b "it" 1000) = Ok (grid3 b).
Proof.
  destruct b; reflexivity.
Qed.

Lemma wf_grid3 (b : bool) : wf_grid (grid3 b).
Proof.
  constructor; cbn; try lia; try reflexivity.
  - split; [reflexivity |]. repeat constructor.
  - repeat constructor.
Qed.

Lemma boundary_reads_unchecked_witness :
  exists bnd, build_boundary [[0; 0; 0]; [0; 1; 0]; [0; 0; 0]] [(1, 1)] = Ok bnd.
Proof.
  apply (proj1 boundary_reads_unchecked
           (grid3 false) diamond (1 # 5, 4 # 5, 1 # 5, 4 # 5) 1
           [[0; 0; 0]; [0; 1; 0]; [0; 0; 0]] [(1, 1)]).
  - apply wf_grid3.
  - vm_compute. reflexivity.
  - repeat constructor; cbn; lia.
Defined.

(** ** Sub-grid distances *)

Lemma argmin_from_spec (l : list Q) :
  forall (pre : list Q) (best : nat) (bv : Q),
    (best < List.length pre)%nat ->
    nth best pre 0%Q = bv ->
    nth (argmin_from l (List.length pre) best bv) (pre ++ l) 0%Q
    = fold_left (fun m y => if Qltb y m then y else m) l bv.
Proof.
  induction l as [| y l IH]; intros pre best bv Hbest Hbv; cbn.
  - rewrite app_nil_r. exact Hbv.
  - replace (pre ++ y :: l) with ((pre ++ [y]) ++ l)
      by (rewrite <- app_assoc; reflexivity).
    replace (S (List.length pre)) with (List.length (pre ++ [y]))
      by (rewrite length_app; cbn; lia).
    destruct (Qltb y bv).
    + apply IH.
      * rewrite length_app; cbn; lia.
      * rewrite app_nth2 by lia. now rewrite Nat.sub_diag.
    + apply IH.
      * rewrite length_app; cbn; lia.
      * rewrite app_nth1 by exact Hbest. exact Hbv.
Qed.

(** [dist[np.argmin(dist)]] is the smallest distance. *)
Lemma np_argmin_min (l : list Q) (mpt : nat) :
  np_argmin l = Ok mpt -> nth mpt l 0%Q = list_min l 0%Q.
Proof.
  destruct l as [| x l]; cbn; [discriminate |].
  intros H. injection H as <-.
  exact (argmin_from_spec l [x] 0%nat x (Nat.lt_0_1) eq_refl).
Qed.

Lemma ibb_nodes_spec (sqrt : Q -> Q) (s : Lattice) (poly : list (Q * Q))
    (bnd : list (Z * Z * Z)) :
  forall acc r : list npfloat,
    for_each bnd (ibb_node sqrt s poly) acc = Ok r ->
    List.length r = (List.length acc + List.length bnd)%nat
    /\ (forall k x, nth_error acc k = Some x -> nth_error r k = Some x)
    /\ (forall k i j q,
          nth_error bnd k = Some (i, j, q) ->
          exists pt cq,
            lattice_coords s i j = Ok pt
            /\ np_get D2Q9.c q = Ok cq
            /\ nth_error r (List.length acc + k)
               = Some (np_div (list_min (vertex_dists sqrt poly pt) 0%Q)
                              (dx s * norm sqrt cq)%Q)).
Proof.
  induction bnd as [| node bnd IH]; intros acc r Hrun; cbn in Hrun.
  - injection Hrun as <-.
    split; [cbn; lia |]. split; [auto |].
    intros k i j q Hk. destruct k; discriminate Hk.
  - apply bind_ok in Hrun as (acc1 & Hnode & Hrest).
    destruct (IH acc1 r Hrest) as (Hlen & Hpre & Hnodes).
    destruct node as [[i0 j0] q0]. unfold ibb_node in Hnode.
    apply bind_ok in Hnode as (pt & Hpt & Hnode).
    apply bind_ok in Hnode as (mpt & Hmpt & Hnode).
    apply bind_ok in Hnode as (cq & Hcq & Hnode).
    injection Hnode as <-.
    rewrite length_app in Hlen; cbn in Hlen.
    split; [cbn; lia |]. split.
    + intros k x Hk. apply Hpre.
      rewrite nth_error_app1; [exact Hk |].
      apply nth_error_Some. congruence.
    + intros k i j q Hk. destruct k as [| k]; cbn in Hk.
      * injection Hk as <- <- <-.
        exists pt, cq. split; [exact Hpt |]. split; [exact Hcq |].
        rewrite Nat.add_0_r. apply Hpre.
        rewrite nth_error_app2 by lia. rewrite Nat.sub_diag. cbn.
        now rewrite (np_argmin_min _ _ Hmpt).
      * destruct (Hnodes k i j q Hk) as (pt' & cq' & H1 & H2 & H3).
        exists pt', cq'. split; [exact H1 |]. split; [exact H2 |].
        rewrite length_app in H3; cbn in H3.
        replace (List.length acc + S k)%nat with (List.length acc + 1 + k)%nat by lia.
        exact H3.
Qed.

(** C5: with interpolated bounce-back on, the distance array of the new
    obstacle opens with the uninitialised entry that [np.empty(1)] leaves
    and then holds one entry per boundary node.  It is one entry longer
    than the boundary list, and the distance of boundary node [k] (the
    smallest distance from the node to a vertex, over [dx] times the norm
    of the recorded direction) sits at index [k + 1], not at index [k]. *)
Theorem add_obstacle_ibb_layout (sqrt : Q -> Q) (s s' : Lattice)
    (poly : list (Q * Q)) (t : Z) :
  IBB s = true ->
  add_obstacle sqrt s poly t = Ok s' ->
  exists o : Obstacle,
    obstacles s' = obstacles s ++ [o]
    /\ List.length (ibb o) = S (List.length (boundary o))
    /\ nth_error (ibb o) 0 = Some Uninit
    /\ (forall k i j q,
          nth_error (boundary o) k = Some (i, j, q) ->
          exists pt cq,
            lattice_coords s i j = Ok pt
            /\ np_get D2Q9.c q = Ok cq
            /\ nth_error (ibb o) (S k)
               = Some (np_div (list_min (vertex_dists sqrt poly pt) 0%Q)
                              (dx s * norm sqrt cq)%Q)).
Proof.
  intros Hibb Hrun. unfold add_obstacle in Hrun.
  apply bind_ok in Hrun as (b0 & _ & Hrun).
  apply bind_ok in Hrun as (b1 & _ & Hrun).
  apply bind_ok in Hrun as (b2 & _ & Hrun).
  apply bind_ok in Hrun as (b3 & _ & Hrun).
  apply bind_ok in Hrun as ([lat obstacle] & _ & Hrun).
  apply bind_ok in Hrun as (bnd & _ & Hrun).
  rewrite Hibb in Hrun.
  apply bind_ok in Hrun as (ibb1 & Hnodes & Hrun).
  apply bind_ok in Hrun as (a & _ & Hrun).
  injection Hrun as <-.
  destruct (ibb_nodes_spec _ _ _ _ _ _ Hnodes) as (Hlen & Hpre & Hat).
  eexists. split; [reflexivity |]. cbn [ibb boundary].
  split; [rewrite Hlen; reflexivity |].
  split; [apply Hpre; reflexivity |].
  exact Hat.
Qed.

Lemma add_obstacle_ibb_layout_witness :
  exists s' : Lattice,
    add_obstacle sqrt_approx (grid3 true) diamond 1 = Ok s'
    /\ exists o : Obstacle,
         obstacles s' = obstacles (grid3 true) ++ [o]
         /\ List.length (ibb o) = S (List.length (boundary o))
         /\ nth_error (ibb o) 0 = Some Uninit
         /\ (forall k i j q,
               nth_error (boundary o) k = Some (i, j, q) ->
               exists pt cq,
                 lattice_coords (grid3 true) i j = Ok pt
                 /\ np_get D2Q9.c q = Ok cq
                 /\ nth_error (ibb o) (S k)
                    = Some (np_div (list_min (vertex_dists sqrt_approx diamond pt) 0%Q)
                                   (dx (grid3 true) * norm sqrt_approx cq)%Q)).
Proof.
  eexists. split; [vm_compute; reflexivity |].
  apply (add_obstacle_ibb_layout sqrt_approx (grid3 true) _ diamond 1 eq_refl).
  vm_compute. reflexivity.
Defined.

(** On the three-by-three grid with the diamond, eight boundary nodes get
    nine entries, the first of them uninitialised. *)
Lemma ibb_diamond_run :
  exists s' o,
    add_obstacle sqrt_approx (grid3 true) diamond 1 = Ok s'
    /\ obstacles s' = [o]
    /\ List.length (boundary o) = 8%nat
    /\ List.length (ibb o) = 9%nat
    /\ nth_error (ibb o) 0 = Some Uninit.
Proof.
  eexists. eexists. split; [vm_compute; reflexivity |].
  repeat split.
Qed.

(** ** The stop check in a loop *)

Lemma calls_it_mode (n : nat) (s : Lattice) :
  stop s = "it"%string -> compute s = false ->
  stop (calls n s) = "it"%string
  /\ it_max (calls n s) = it_max s
  /\ it (calls n s) = it s + Z.of_nat n
  /\ (compute (calls n s) = true <-> (0 < n)%nat /\ it_max s < it s + Z.of_nat n - 1).
Proof.
  intros Hstop Hc.
  induction n as [| n (IHs & IHm & IHi & IHc)].
  - cbn [calls].
    split; [exact Hstop |]. split; [reflexivity |]. split; [lia |].
    split; [rewrite Hc; discriminate | intros [H _]; lia].
  - cbn [calls]. unfold check_stop. rewrite IHs. cbn [String.eqb Ascii.eqb Bool.eqb].
    destruct (it (calls n s) >? it_max (calls n s)) eqn:E;
      cbn [stop set_compute]; rewrite IHs; cbn [String.eqb Ascii.eqb Bool.eqb snd];
      cbn [stop it_max it compute set_it set_compute];
      rewrite Z.gtb_ltb in E.
    + apply Z.ltb_lt in E.
      split; [exact IHs |]. split; [exact IHm |]. split; [lia |].
      split; [intros _; lia | reflexivity].
    + apply Z.ltb_ge in E.
      split; [exact IHs |]. split; [exact IHm |]. split; [lia |].
      split.
      * intros H. apply IHc in H. lia.
      * intros [_ H]. lia.
Qed.

(** In mode ['it'], starting with the flag unset, call number [n + 1]
    answers true exactly when [it + n] exceeds [it_max]: from [it = 0] the
    loop body runs [it_max + 2] times before the check first answers
    true. *)
Theorem check_stop_call_count (s : Lattice) (n : nat) :
  stop s = "it"%string -> compute s = false ->
  (fst (check_stop (calls n s)) = true <-> it_max s < it s + Z.of_nat n).
Proof.
  intros Hstop Hc.
  destruct (calls_it_mode (S n) s Hstop Hc) as (_ & _ & _ & H).
  rewrite check_stop_returns_flag. cbn [calls] in H.
  rewrite H. lia.
Qed.

Lemma check_stop_call_count_witness :
  fst (check_stop (calls 3 (set_it (grid3 false) 998))) = true
  <-> it_max (set_it (grid3 false) 998) < it (set_it (grid3 false) 998) + Z.of_nat 3.
Proof.
  apply (check_stop_call_count (set_it (grid3 false) 998) 3); reflexivity.
Defined.

(** A stop mode other than ['it'] and ['obs'] is accepted silently and
    never ends the loop: the flag stays as it was through any number of
    calls, whatever the counter and the buffers say. *)
Theorem check_stop_unknown_mode (s : Lattice) (n : nat) :
  stop s <> "it"%string -> stop s <> "obs"%string ->
  compute (calls n s) = compute s
  /\ stop (calls n s) = stop s
  /\ fst (check_stop (calls n s)) = compute s.
Proof.
  intros Hit Hobs.
  apply String.eqb_neq in Hit. apply String.eqb_neq in Hobs.
  assert (Hstep : forall r, stop r = stop s ->
            compute (snd (check_stop r)) = compute r
            /\ stop (snd (check_stop r)) = stop s).
  { intros r Hr. unfold check_stop. rewrite Hr, Hit. rewrite Hr, Hobs.
    split; [reflexivity | exact Hr]. }
  assert (Hinv : forall k, compute (calls k s) = compute s /\ stop (calls k s) = stop s).
  { induction k as [| k [IHc IHs]]; [split; reflexivity |].
    cbn [calls]. destruct (Hstep _ IHs) as [H1 H2].
    split; [rewrite H1; exact IHc | exact H2]. }
  destruct (Hinv n) as [Hc Hs].
  split; [exact Hc |]. split; [exact Hs |].
  rewrite check_stop_returns_flag.
  destruct (Hstep _ Hs) as [H1 _]. rewrite H1. exact Hc.
Qed.

Lemma check_stop_unknown_mode_witness :
  fst (check_stop
         (calls 5 (mkLattice 0 1 0 1 3 3 1 1 false "time" 0 2 2 1 1 1 1
                     [] [] [] [] [] 0 false true true))) = false.
Proof.
  apply (check_stop_unknown_mode
           (mkLattice 0 1 0 1 3 3 1 1 false "time" 0 2 2 1 1 1 1
              [] [] [] [] [] 0 false true true) 5);
    discriminate.
Defined.

(** ** What the constructor raises and what it builds *)

Lemma py_div_ok (a b x : Q) :
  py_div a b = Ok x -> ~ (b == 0)%Q /\ x = (a / b)%Q.
Proof.
  unfold py_div. destruct (Qeq_bool b 0) eqn:E; [discriminate |].
  intros H. injection H as <-. split; [| reflexivity].
  intros Hb. apply Qeq_eq_bool in Hb. congruence.
Qed.

Lemma py_div_zero (a b : Q) : (b == 0)%Q -> py_div a b = Raise ZeroDivisionError.
Proof.
  intros Hb. unfold py_div. now rewrite (Qeq_eq_bool _ _ Hb).
Qed.

Lemma init_ok (k : Config) (s : Lattice) :
  init k = Ok s ->
  ~ (cfg_dt k == 0)%Q /\ ~ (cfg_tau_lbm k - 1 / 2 == 0)%Q /\ ~ (cfg_tau_lbm k == 0)%Q
  /\ 0 <= cfg_nx k /\ 0 <= cfg_ny k
  /\ s = mkLattice
           (cfg_x_min k) (cfg_x_max k) (cfg_y_min k) (cfg_y_max k)
           (cfg_nx k) (cfg_ny k) (cfg_dx k) (cfg_dt k)
           (cfg_IBB k) (cfg_stop k) (cfg_it_max k)
           (cfg_nx k - 1) (cfg_ny k - 1)
           (cfg_tau_lbm k) ((1 / 4) / (cfg_tau_lbm k - 1 / 2) + 1 / 2)%Q
           (1 / cfg_tau_lbm k)%Q
           (1 / ((1 / 4) / (cfg_tau_lbm k - 1 / 2) + 1 / 2))%Q
           (repeat (full2d (Z.to_nat (cfg_nx k)) (Z.to_nat (cfg_ny k)) 0%Q) D2Q9.q)
           (full2d (Z.to_nat (cfg_nx k)) (Z.to_nat (cfg_ny k)) 1%Q)
           (repeat (full2d (Z.to_nat (cfg_nx k)) (Z.to_nat (cfg_ny k)) (Fin 0)) 2)
           (full2d (Z.to_nat (cfg_nx k)) (Z.to_nat (cfg_ny k)) 0)
           [] 0 false false false.
Proof.
  unfold init. intros H.
  apply bind_ok in H as (x1 & H1 & H). apply py_div_ok in H1 as [Hdt _].
  apply bind_ok in H as (x2 & _ & H).
  apply bind_ok in H as (x3 & _ & H).
  apply bind_ok in H as (t & Ht & H). apply py_div_ok in Ht as [Hhalf ->].
  apply bind_ok in H as (om_p & Hp & H). apply py_div_ok in Hp as [Htau ->].
  apply bind_ok in H as (om_m & Hm & H). apply py_div_ok in Hm as [_ ->].
  apply bind_ok in H as (x4 & _ & H).
  destruct (cfg_nx k <? 0) eqn:En; [discriminate |].
  destruct (cfg_ny k <? 0) eqn:Em; [discriminate |].
  cbn [orb] in H. injection H as <-.
  apply Z.ltb_ge in En. apply Z.ltb_ge in Em.
  repeat (split; [assumption |]). reflexivity.
Qed.

(** A solver that the constructor built has a non-zero [dt], a [tau_lbm]
    other than 0 and 1/2, non-negative extents and two non-zero relaxation
    times: with [dt = 0], [tau_lbm] equal to 0 or 1/2, or a negative [nx]
    or [ny] the constructor does not return. *)
Theorem init_failures (k : Config) (s : Lattice) :
  init k = Ok s ->
  (~ (cfg_dt k == 0) /\ ~ (cfg_tau_lbm k - 1 / 2 == 0) /\ ~ (cfg_tau_lbm k == 0))%Q
  /\ 0 <= cfg_nx k /\ 0 <= cfg_ny k
  /\ (~ (tau_p_lbm s == 0) /\ ~ (tau_m_lbm s == 0))%Q.
Proof.
  intros H. apply init_ok in H as (Hdt & Hh & Ht & Hnx & Hny & ->).
  cbn [tau_p_lbm tau_m_lbm].
  split; [split; [exact Hdt | split; [exact Hh | exact Ht]] |].
  split; [exact Hnx |]. split; [exact Hny |].
  split; [exact Ht | exact (tau_m_nonzero _ Ht Hh)].
Qed.

Lemma init_failures_witness :
  exists s,
    init (default_config 3 3) = Ok s
    /\ (~ (tau_p_lbm s == 0) /\ ~ (tau_m_lbm s == 0))%Q.
Proof.
  eexists. split; [vm_compute; reflexivity |].
  refine (proj2 (proj2 (proj2 (init_failures (default_config 3 3) _ _)))).
  vm_compute. reflexivity.
Defined.

Lemma init_wf (k : Config) (s : Lattice) : init k = Ok s -> wf_grid s.
Proof.
  intros H. apply init_ok in H as (_ & _ & _ & Hnx & Hny & ->).
  constructor; cbn [nx ny g u lattice]; try assumption.
  - split; [apply repeat_length |].
    apply Forall_forall. intros l Hl. apply repeat_spec in Hl. subst l.
    apply shape2_full2d.
  - reflexivity.
  - apply shape2_full2d.
Qed.

(** ** More on the macroscopic update *)

Lemma column_repeat_full (n m i j k : nat) (v : Q) :
  (i < n)%nat -> (j < m)%nat ->
  column (repeat (full2d n m v) k) i j = repeat v k.
Proof.
  intros Hi Hj. unfold column.
  induction k as [| k IH]; cbn; [reflexivity |].
  rewrite IH. now rewrite cell_full2d.
Qed.

(** Right after construction the populations are all zero, so a first
    [macro] turns the density to 0 in every cell (the constructor had set
    it to 1) and leaves a non-finite velocity everywhere: the populations
    have to be filled in before the first update. *)
Theorem macro_on_fresh_solver (k : Config) (s : Lattice) (i j : nat) :
  init k = Ok s ->
  (i < Z.to_nat (nx s))%nat -> (j < Z.to_nat (ny s))%nat ->
  cell (rho s) i j = Some 1%Q
  /\ cell (rho (macro s)) i j = Some 0%Q
  /\ u_at (macro s) 0 i j = Some NonFinite
  /\ u_at (macro s) 1 i j = Some NonFinite.
Proof.
  intros Hinit Hi Hj.
  pose proof (init_wf k s Hinit) as Hwf.
  destruct (macro_cell s i j Hwf Hi Hj) as (Hr & Hx & Hy).
  apply init_ok in Hinit as (_ & _ & _ & _ & _ & ->).
  cbn [nx ny] in Hi, Hj.
  cbn [g] in Hr, Hx, Hy.
  rewrite column_repeat_full in Hr, Hx, Hy by assumption.
  split; [cbn [rho]; apply cell_full2d; assumption |].
  split; [exact Hr |]. split; [exact Hx | exact Hy].
Qed.

Lemma macro_on_fresh_solver_witness :
  exists s : Lattice,
    init (default_config 3 3) = Ok s
    /\ cell (rho s) 1 2 = Some 1%Q
    /\ cell (rho (macro s)) 1 2 = Some 0%Q
    /\ u_at (macro s) 0 1 2 = Some NonFinite
    /\ u_at (macro s) 1 1 2 = Some NonFinite.
Proof.
  eexists. split; [vm_compute; reflexivity |].
  apply (macro_on_fresh_solver (default_config 3 3)).
  - vm_compute. reflexivity.
  - cbn. lia.
  - cbn. lia.
Defined.

Lemma zip_with_length {A B C : Type} (f : A -> B -> C) (a : list A) (b : list B) :
  List.length (zip_with f a b) = Nat.min (List.length a) (List.length b).
Proof.
  revert b; induction a as [| x a IH]; intros [| y b]; cbn; auto.
Qed.

Lemma zip_with_In {A B C : Type} (f : A -> B -> C) (a : list A) (b : list B) (z : C) :
  In z (zip_with f a b) -> exists x y, In x a /\ In y b /\ z = f x y.
Proof.
  revert b; induction a as [| x a IH]; intros [| y b]; cbn; try contradiction.
  intros [<- | H].
  - exists x, y. auto.
  - destruct (IH b H) as (x' & y' & Hx & Hy & ->). exists x', y'. auto.
Qed.

Lemma shape2_zip2d {A B C : Type} (f : A -> B -> C) (n m : nat)
    (a : list (list A)) (b : list (list B)) :
  shape2 n m a -> shape2 n m b -> shape2 n m (zip2d f a b).
Proof.
  intros [Han Ham] [Hbn Hbm]. unfold zip2d. split.
  - rewrite zip_with_length. lia.
  - apply Forall_forall. intros row Hrow.
    apply zip_with_In in Hrow as (ra & rb & Hra & Hrb & ->).
    rewrite Forall_forall in Ham, Hbm.
    rewrite zip_with_length, (Ham ra Hra), (Hbm rb Hrb). lia.
Qed.

Lemma shape2_map2d {A B : Type} (f : A -> B) (n m : nat) (a : list (list A)) :
  shape2 n m a -> shape2 n m (map2d f a).
Proof.
  intros [Hn Hm]. unfold map2d. split.
  - now rewrite length_map.
  - apply Forall_forall. intros row Hrow.
    apply in_map_iff in Hrow as (r & <- & Hr).
    rewrite length_map. rewrite Forall_forall in Hm. exact (Hm r Hr).
Qed.

Lemma shape2_sum_axis0 (n m : nat) (layers : list (list (list Q))) :
  Forall (shape2 n m) layers -> shape2 n m (sum_axis0 n m layers).
Proof.
  intros Hall. unfold sum_axis0.
  assert (H : forall acc, shape2 n m acc -> shape2 n m (fold_left add2d layers acc)).
  { induction Hall as [| l layers Hl _ IH]; intros acc Hacc; cbn; [exact Hacc |].
    apply IH. unfold add2d. apply shape2_zip2d; assumption. }
  apply H, shape2_full2d.
Qed.

Lemma shape2_tensordot (n m : nat) (v : list Z) (layers : list (list (list Q))) :
  Forall (shape2 n m) layers -> shape2 n m (tensordot n m v layers).
Proof.
  intros Hall. unfold tensordot. apply shape2_sum_axis0.
  apply Forall_forall. intros l Hl.
  apply zip_with_In in Hl as (kq & a & _ & Ha & ->).
  rewrite Forall_forall in Hall.
  unfold scale2d. apply shape2_map2d. exact (Hall a Ha).
Qed.

Lemma set_fields_twice (s : Lattice) (r : list (list Q)) (x y : list (list npfloat)) :
  set_u (set_rho (set_u (set_rho s r) (set_nth (set_nth (u s) 0 x) 1 y)) r)
        (set_nth (set_nth (set_nth (set_nth (u s) 0 x) 1 y) 0 x) 1 y)
  = set_u (set_rho s r) (set_nth (set_nth (u s) 0 x) 1 y).
Proof.
  destruct s as [? ? ? ? ? ? ? ? ? ? ? ? ? ? ? ? ? ? ? us ? ? ? ? ? ?].
  unfold set_u, set_rho; cbn [x_min x_max y_min y_max nx ny dx dt IBB stop it_max
    lx ly tau_p_lbm tau_m_lbm om_p_lbm om_m_lbm g rho u lattice obstacles
    it compute drag_obs_cv lift_obs_cv].
  f_equal. destruct us as [| u0 [| u1 us]]; reflexivity.
Qed.

Lemma macro_unfold (s : Lattice) :
  let n := Z.to_nat (nx s) in
  let m := Z.to_nat (ny s) in
  let r := sum_axis0 n m (g s) in
  macro s
  = set_u (set_rho s r)
      (set_nth (set_nth (u s) 0 (zip2d np_div (tensordot n m D2Q9.c_x (g s)) r))
               1 (zip2d np_div (tensordot n m D2Q9.c_y (g s)) r)).
Proof. reflexivity. Qed.

Lemma macro_twice (s : Lattice) : macro (macro s) = macro s.
Proof.
  pose proof (macro_unfold s) as E. cbv zeta in E.
  pose proof (macro_unfold (macro s)) as E2. cbv zeta in E2.
  change (nx (macro s)) with (nx s) in E2.
  change (ny (macro s)) with (ny s) in E2.
  change (g (macro s)) with (g s) in E2.
  rewrite E2. clear E2.
  revert E.
  generalize (sum_axis0 (Z.to_nat (nx s)) (Z.to_nat (ny s)) (g s)).
  generalize (tensordot (Z.to_nat (nx s)) (Z.to_nat (ny s)) D2Q9.c_x (g s)).
  generalize (tensordot (Z.to_nat (nx s)) (Z.to_nat (ny s)) D2Q9.c_y (g s)).
  intros ty tx r E.
  rewrite E. cbn [u set_u].
  apply set_fields_twice.
Qed.

(** [macro] writes [rho] and the two layers of [u] at the extents of the
    grid and touches nothing else: the populations, the tags, the
    obstacles, the counter and the flag are as before, the state stays
    well shaped, and a second [macro] changes nothing. *)
Theorem macro_frame (s : Lattice) :
  wf_grid s ->
  wf_grid (macro s)
  /\ shape2 (Z.to_nat (nx s)) (Z.to_nat (ny s)) (rho (macro s))
  /\ Forall (shape2 (Z.to_nat (nx s)) (Z.to_nat (ny s))) (u (macro s))
  /\ g (macro s) = g s /\ lattice (macro s) = lattice s
  /\ obstacles (macro s) = obstacles s
  /\ it (macro s) = it s /\ compute (macro s) = compute s
  /\ macro (macro s) = macro s.
Proof.
  intros Hwf. pose proof Hwf as [Hnx Hny [Hgl Hg] Hu Hlat].
  pose proof (shape2_sum_axis0 _ _ _ Hg) as Hrho.
  pose proof (shape2_tensordot _ _ D2Q9.c_x _ Hg) as Hx.
  pose proof (shape2_tensordot _ _ D2Q9.c_y _ Hg) as Hy.
  split.
  { constructor; unfold macro; cbn [nx ny g u lattice set_u set_rho]; try assumption.
    - split; assumption.
    - now rewrite !length_set_nth. }
  split; [exact Hrho |].
  split.
  { unfold macro; cbn [nx ny g u rho set_u set_rho].
    destruct (u s) as [| u0 [| u1 [| u2 us]]]; try discriminate Hu.
    cbn [set_nth].
    constructor; [apply shape2_zip2d; assumption |].
    constructor; [apply shape2_zip2d; assumption | constructor]. }
  repeat (split; [reflexivity |]).
  apply macro_twice.
Qed.

Lemma macro_frame_witness :
  shape2 1 2 (rho (macro (two_cells 3)))
  /\ macro (macro (two_cells 3)) = macro (two_cells 3).
Proof.
  pose proof (macro_frame (two_cells 3) (wf_two_cells 3)) as H.
  split; [exact (proj1 (proj2 H)) |].
  exact (proj2 (proj2 (proj2 (proj2 (proj2 (proj2 (proj2 (proj2 H)))))))).
Defined.

(** ** Node coordinates *)

Lemma inject_Z_zero (z : Z) : (inject_Z z == 0)%Q <-> z = 0.
Proof.
  unfold Qeq, inject_Z; cbn. lia.
Qed.



(** ** Point in polygon, in general *)

Lemma Qltb_true_iff (a b : Q) : Qltb a b = true <-> (a < b)%Q.
Proof.
  unfold Qltb. rewrite Qlt_alt.
  destruct (a ?= b)%Q; split; intros H; congruence.
Qed.

Lemma Qltb_false_iff (a b : Q) : Qltb a b = false <-> (b <= a)%Q.
Proof.
  rewrite <- not_true_iff_false, Qltb_true_iff.
  split; [apply Qnot_lt_le | apply Qle_not_lt].
Qed.

Lemma Qleb_true_iff (a b : Q) : Qleb a b = true <-> (a <= b)%Q.
Proof. apply Qle_bool_iff. Qed.

Lemma Qleb_false_iff (a b : Q) : Qleb a b = false <-> (b < a)%Q.
Proof.
  rewrite <- not_true_iff_false, Qleb_true_iff.
  split; [apply Qnot_le_lt | apply Qlt_not_le].
Qed.


Lemma is_inside_all_skipped (poly : list (Q * Q)) (pt : Q * Q) :
  edge_skipped poly pt -> is_inside poly pt = false.
Proof.
  intros Hskip. unfold is_inside.
  assert (H : forall (idx : list nat) (j : nat),
             Forall (fun i => (i < List.length poly)%nat) idx ->
             (j < List.length poly)%nat ->
             snd (fold_left (is_inside_step poly pt) idx (j, false)) = false).
  { induction idx as [| i idx IH]; intros j Hidx Hj; cbn [fold_left]; [reflexivity |].
    inversion Hidx as [| ? ? Hi Hrest]; subst.
    rewrite (Hskip i j false Hi Hj). apply IH; assumption. }
  destruct poly as [| p poly]; [reflexivity |].
  apply H.
  - apply Forall_forall. intros i Hi. apply in_seq in Hi. lia.
  - cbn. lia.
Qed.

(** A point strictly above every vertex, at or below every vertex, or at
    or left of every vertex is outside, for any polygon (the empty one
    included): no edge toggles the flag. *)
Theorem is_inside_beyond_vertices (poly : list (Q * Q)) (pt : Q * Q) :
  (forall p, In p poly -> snd p < snd pt)%Q
  \/ (forall p, In p poly -> snd pt <= snd p)%Q
  \/ (forall p, In p poly -> fst pt <= fst p)%Q ->
  is_inside poly pt = false.
Proof.
  intros H. apply is_inside_all_skipped.
  intros i j o Hi Hj. unfold is_inside_step.
  pose proof (nth_In poly (0, 0)%Q Hi) as Pi.
  pose proof (nth_In poly (0, 0)%Q Hj) as Pj.
  set (pi := nth i poly (0, 0)%Q) in *. set (pj := nth j poly (0, 0)%Q) in *.
  destruct H as [H | [H | H]].
  - rewrite (proj2 (Qleb_false_iff _ _) (H pj Pj)).
    rewrite (proj2 (Qleb_false_iff _ _) (H pi Pi)).
    rewrite !andb_false_r. reflexivity.
  - rewrite (proj2 (Qltb_false_iff _ _) (H pj Pj)).
    rewrite (proj2 (Qltb_false_iff _ _) (H pi Pi)).
    reflexivity.
  - rewrite (proj2 (Qltb_false_iff _ _) (H pj Pj)).
    rewrite (proj2 (Qltb_false_iff _ _) (H pi Pi)).
    rewrite andb_false_r. reflexivity.
Qed.

Lemma is_inside_beyond_vertices_witness :
  is_inside unit_square (1 # 2, 3)%Q = false.
Proof.
  apply (is_inside_beyond_vertices unit_square (1 # 2, 3)%Q).
  left. intros p Hp. cbn in Hp.
  repeat (destruct Hp as [<- | Hp]; [reflexivity |]). contradiction.
Defined.





(** ** The order of [np.unique] *)










(** ** Reading back what was written *)

Lemma np_index_lt (n : nat) (k : Z) (p : nat) :
  np_index (Z.of_nat n) k = Ok p -> (p < n)%nat.
Proof.
  unfold np_index.
  destruct ((0 <=? k) && (k <? Z.of_nat n)) eqn:E1.
  - apply andb_true_iff in E1 as [H1 H2].
    apply Z.leb_le in H1. apply Z.ltb_lt in H2.
    intros H. injection H as <-. lia.
  - destruct ((- Z.of_nat n <=? k) && (k <? 0)) eqn:E2; [| discriminate].
    apply andb_true_iff in E2 as [H1 H2].
    apply Z.leb_le in H1. apply Z.ltb_lt in H2.
    intros H. injection H as <-. lia.
Qed.

Lemma np_index_nonneg (n k : Z) (p : nat) :
  0 <= k -> np_index n k = Ok p -> p = Z.to_nat k /\ k < n.
Proof.
  intros Hk. unfold np_index.
  destruct ((0 <=? k) && (k <? n)) eqn:E1.
  - apply andb_true_iff in E1 as [_ H2]. apply Z.ltb_lt in H2.
    intros H. injection H as <-. split; [reflexivity | exact H2].
  - replace (k <? 0) with false by (symmetry; apply Z.ltb_ge; exact Hk).
    rewrite andb_false_r. discriminate.
Qed.

Lemma np_get_inv {A : Type} (a : list A) (k : Z) (x : A) :
  np_get a k = Ok x ->
  exists p, np_index (Z.of_nat (List.length a)) k = Ok p /\ nth_error a p = Some x.
Proof.
  unfold np_get. intros H.
  apply bind_ok in H as (p & Hp & H).
  destruct (nth_error a p) as [y |] eqn:E; [| discriminate].
  injection H as <-. exists p. split; assumption.
Qed.

Lemma np_get_intro {A : Type} (a : list A) (k : Z) (p : nat) (x : A) :
  np_index (Z.of_nat (List.length a)) k = Ok p -> nth_error a p = Some x ->
  np_get a k = Ok x.
Proof.
  intros Hp Hx. unfold np_get. rewrite Hp. cbn [bind]. now rewrite Hx.
Qed.

Lemma np_set2_inv {A : Type} (a a' : list (list A)) (i j : Z) (v : A) :
  np_set2 a i j v = Ok a' ->
  exists p row pj,
    np_index (Z.of_nat (List.length a)) i = Ok p
    /\ nth_error a p = Some row
    /\ np_index (Z.of_nat (List.length row)) j = Ok pj
    /\ a' = set_nth a p (set_nth row pj v).
Proof.
  unfold np_set2. intros H.
  apply bind_ok in H as (p & Hp & H).
  destruct (nth_error a p) as [row |] eqn:Hrow; [| discriminate].
  apply bind_ok in H as (pj & Hpj & H).
  injection H as <-.
  exists p, row, pj. auto.
Qed.

(** The entry just written reads back. *)
Lemma np_get2_set2_same {A : Type} (a a' : list (list A)) (i j : Z) (v : A) :
  np_set2 a i j v = Ok a' -> np_get2 a' i j = Ok v.
Proof.
  intros H. apply np_set2_inv in H as (p & row & pj & Hp & Hrow & Hpj & ->).
  unfold np_get2.
  rewrite (np_get_intro (set_nth a p (set_nth row pj v)) i p (set_nth row pj v)).
  - cbn [bind]. apply (np_get_intro _ j pj).
    + now rewrite length_set_nth.
    + apply nth_error_set_nth_eq. exact (np_index_lt _ _ _ Hpj).
  - now rewrite length_set_nth.
  - apply nth_error_set_nth_eq. exact (np_index_lt _ _ _ Hp).
Qed.

(** Every other entry, addressed by non-negative indices, is left as it
    was. *)
Lemma np_get2_set2_other {A : Type} (a a' : list (list A)) (i j i' j' : Z) (v : A) :
  np_set2 a i j v = Ok a' ->
  0 <= i -> 0 <= j -> 0 <= i' -> 0 <= j' -> (i', j') <> (i, j) ->
  np_get2 a' i' j' = np_get2 a i' j'.
Proof.
  intros H Hi Hj Hi' Hj' Hne.
  apply np_set2_inv in H as (p & row & pj & Hp & Hrow & Hpj & ->).
  destruct (np_index_nonneg _ _ _ Hi Hp) as [-> _].
  destruct (np_index_nonneg _ _ _ Hj Hpj) as [-> _].
  unfold np_get2, np_get. rewrite length_set_nth.
  destruct (np_index (Z.of_nat (List.length a)) i') as [p' | e] eqn:Hp';
    cbn [bind]; [| reflexivity].
  destruct (np_index_nonneg _ _ _ Hi' Hp') as [-> _].
  destruct (Z.eq_dec i' i) as [-> | Hii].
  - rewrite nth_error_set_nth_eq by exact (np_index_lt _ _ _ Hp).
    rewrite Hrow. cbn [bind]. rewrite length_set_nth.
    destruct (np_index (Z.of_nat (List.length row)) j') as [q' | e] eqn:Hq';
      cbn [bind]; [| reflexivity].
    destruct (np_index_nonneg _ _ _ Hj' Hq') as [-> _].
    rewrite nth_error_set_nth_ne; [reflexivity |].
    intros E. apply Z2Nat.inj in E; [| assumption | assumption].
    apply Hne. now subst.
  - rewrite nth_error_set_nth_ne; [reflexivity |].
    intros E. apply Z2Nat.inj in E; [| assumption | assumption].
    apply Hii. now subst.
Qed.

Lemma range_In (n k : Z) : In k (range n) <-> 0 <= k < n.
Proof.
  unfold range. rewrite in_map_iff. split.
  - intros (x & <- & Hx). apply in_seq in Hx. lia.
  - intros Hk. exists (Z.to_nat k). split; [lia |]. apply in_seq. lia.
Qed.

(** Every element of a loop that ran to its end had its turn, on some
    state between the first and the last, when states only ever grow. *)
Lemma for_each_visit {A S : Type} (ext : S -> S -> Prop)
    (body : S -> A -> result S) (l : list A) :
  (forall a, ext a a) ->
  (forall a b c, ext a b -> ext b c -> ext a c) ->
  (forall a x b, body a x = Ok b -> ext a b) ->
  forall s s', for_each l body s = Ok s' ->
    ext s s'
    /\ forall x, In x l -> exists a b, body a x = Ok b /\ ext s a /\ ext b s'.
Proof.
  intros Hrefl Htrans Hbody.
  induction l as [| y l IH]; intros s s' Hrun; cbn in Hrun.
  - injection Hrun as <-. split; [apply Hrefl | contradiction].
  - apply bind_ok in Hrun as (s1 & H1 & H2).
    destruct (IH s1 s' H2) as [Hext Hvis].
    pose proof (Hbody _ _ _ H1) as Hs1.
    split; [exact (Htrans _ _ _ Hs1 Hext) |].
    intros x [<- | Hx].
    + exists s, s1. auto.
    + destruct (Hvis x Hx) as (a & b & Hab & Ha & Hb).
      exists a, b. split; [exact Hab |]. split; [| exact Hb].
      exact (Htrans _ _ _ Hs1 Ha).
Qed.

(** ** What the fill tags *)

Lemma fill_cell_inv (s : Lattice) (poly : list (Q * Q)) (bnds : Q * Q * Q * Q)
    (t i j : Z) (acc acc' : list (list Z) * list (Z * Z)) :
  fill_cell s poly bnds t i acc j = Ok acc' ->
  exists pt,
    lattice_coords s i j = Ok pt
    /\ ((strictly_in_bbox bnds pt && is_inside poly pt = true
         /\ exists lat', np_set2 (fst acc) i j t = Ok lat'
                         /\ acc' = (lat', snd acc ++ [(i, j)]))
        \/ (strictly_in_bbox bnds pt && is_inside poly pt = false /\ acc' = acc)).
Proof.
  destruct bnds as [[[b0 b1] b2] b3]. destruct acc as [lat0 obs0].
  unfold fill_cell, strictly_in_bbox. intros H.
  apply bind_ok in H as (pt & Hpt & H).
  exists pt. split; [exact Hpt |].
  destruct (Qltb b0 (fst pt) && Qltb (fst pt) b1 && Qltb b2 (snd pt) && Qltb (snd pt) b3);
    cbn [andb]; [| right; injection H as <-; auto].
  destruct (is_inside poly pt); [| right; injection H as <-; auto].
  apply bind_ok in H as (lat' & Hset & H). injection H as <-.
  left. split; [reflexivity |]. exists lat'. auto.
Qed.

Lemma fill_cell_keeps (s : Lattice) (poly : list (Q * Q)) (bnds : Q * Q * Q * Q)
    (t i j : Z) (acc acc' : list (list Z) * list (Z * Z)) :
  0 <= i < nx s -> 0 <= j < ny s ->
  fill_state s poly bnds t acc ->
  fill_cell s poly bnds t i acc j = Ok acc' ->
  fill_state s poly bnds t acc'.
Proof.
  intros Hi Hj [H1 H2] Hcell.
  apply fill_cell_inv in Hcell as (pt & Hpt & [(Htest & lat' & Hset & ->) | (_ & ->)]);
    [| split; assumption].
  split; cbn [fst snd].
  - intros a b Hin. apply in_app_or in Hin as [Hin | [Hin | []]].
    + destruct (H1 a b Hin) as (Ha & Hb & Hget & Hpt').
      split; [exact Ha |]. split; [exact Hb |]. split; [| exact Hpt'].
      destruct (Z.eq_dec a i) as [-> | Hai].
      * destruct (Z.eq_dec b j) as [-> | Hbj];
          [exact (np_get2_set2_same _ _ _ _ _ Hset) |].
        rewrite (np_get2_set2_other _ _ _ _ _ _ _ Hset); try lia; [exact Hget |].
        intros E. injection E as ?. contradiction.
      * rewrite (np_get2_set2_other _ _ _ _ _ _ _ Hset); try lia; [exact Hget |].
        intros E. injection E as ? ?. contradiction.
    + injection Hin as <- <-.
      split; [exact Hi |]. split; [exact Hj |].
      split; [exact (np_get2_set2_same _ _ _ _ _ Hset) |].
      exists pt. auto.
  - intros a b Ha Hb.
    destruct (Z.eq_dec a i) as [-> | Hai].
    + destruct (Z.eq_dec b j) as [-> | Hbj].
      * left. apply in_or_app. right. left. reflexivity.
      * destruct (H2 i b Ha Hb) as [Hin | Hsame];
          [left; apply in_or_app; left; exact Hin |].
        right. rewrite (np_get2_set2_other _ _ _ _ _ _ _ Hset); try lia;
          [exact Hsame |].
        intros E. injection E as ?. contradiction.
    + destruct (H2 a b Ha Hb) as [Hin | Hsame];
        [left; apply in_or_app; left; exact Hin |].
      right. rewrite (np_get2_set2_other _ _ _ _ _ _ _ Hset); try lia;
        [exact Hsame |].
      intros E. injection E as ? ?. contradiction.
Qed.

Lemma fill_cell_grows (s : Lattice) (poly : list (Q * Q)) (bnds : Q * Q * Q * Q)
    (t i j : Z) (acc acc' : list (list Z) * list (Z * Z)) :
  fill_cell s poly bnds t i acc j = Ok acc' -> incl (snd acc) (snd acc').
Proof.
  intros H.
  apply fill_cell_inv in H as (pt & _ & [(_ & lat' & _ & ->) | (_ & ->)]).
  - cbn [snd]. apply incl_appl, incl_refl.
  - apply incl_refl.
Qed.

Lemma fill_spec (s : Lattice) (poly : list (Q * Q)) (bnds : Q * Q * Q * Q) (t : Z)
    (lat : list (list Z)) (obstacle : list (Z * Z)) :
  fill s poly bnds t = Ok (lat, obstacle) ->
  fill_state s poly bnds t (lat, obstacle)
  /\ forall i j, 0 <= i < nx s -> 0 <= j < ny s ->
       exists pt, lattice_coords s i j = Ok pt
                  /\ (strictly_in_bbox bnds pt && is_inside poly pt = true ->
                      In (i, j) obstacle).
Proof.
  intros Hfill. unfold fill in Hfill. split.
  - apply (for_each_inv (fill_state s poly bnds t) _ _) in Hfill; [exact Hfill | |].
    + intros acc i acc' Hi Hacc Hrow. apply range_In in Hi.
      apply (for_each_inv (fill_state s poly bnds t) _ _) in Hrow;
        [exact Hrow | | exact Hacc].
      intros a j a' Hj Ha Hcell. apply range_In in Hj.
      exact (fill_cell_keeps _ _ _ _ _ _ _ _ Hi Hj Ha Hcell).
    + split; cbn [fst snd]; [contradiction | auto].
  - intros i j Hi Hj.
    set (ext := fun a b : list (list Z) * list (Z * Z) => incl (snd a) (snd b)).
    assert (Hrefl : forall a, ext a a) by (intros a; apply incl_refl).
    assert (Htrans : forall a b c, ext a b -> ext b c -> ext a c)
      by (intros a b c; apply incl_tran).
    assert (Hinner : forall i0 a b,
               for_each (range (ny s)) (fill_cell s poly bnds t i0) a = Ok b ->
               ext a b
               /\ forall x, In x (range (ny s)) ->
                    exists a' b', fill_cell s poly bnds t i0 a' x = Ok b'
                                  /\ ext a a' /\ ext b' b).
    { intros i0 a b Hrow.
      apply (for_each_visit ext _ _ Hrefl Htrans); [| exact Hrow].
      intros a0 x b0. apply fill_cell_grows. }
    destruct (for_each_visit ext _ _ Hrefl Htrans
                (fun a x b H => proj1 (Hinner x a b H)) _ _ Hfill) as [_ Houter].
    destruct (Houter i (proj2 (range_In _ _) Hi)) as (a & b & Hrow & _ & Hb).
    destruct (proj2 (Hinner i a b Hrow) j (proj2 (range_In _ _) Hj))
      as (a' & b' & Hcell & _ & Hb').
    pose proof (fill_cell_grows _ _ _ _ _ _ _ _ Hcell) as Hgrow.
    apply fill_cell_inv in Hcell as (pt & Hpt & Hcase).
    exists pt. split; [exact Hpt |].
    intros Htest.
    destruct Hcase as [(_ & lat' & _ & ->) | (Hno & _)]; [| congruence].
    apply Hb, Hb'. cbn [snd]. apply in_or_app. right. left. reflexivity.
Qed.

(** ** The boundary list *)




Lemma poly_bnds_intro (poly : list (Q * Q)) (b0 b1 b2 b3 : Q) :
  np_amin (map fst poly) = Ok b0 -> np_amax (map fst poly) = Ok b1 ->
  np_amin (map snd poly) = Ok b2 -> np_amax (map snd poly) = Ok b3 ->
  poly_bnds poly = Ok (b0, b1, b2, b3).
Proof.
  intros H0 H1 H2 H3. unfold poly_bnds. now rewrite H0, H1, H2, H3.
Qed.

Lemma add_obstacle_inv (sqrt : Q -> Q) (s s' : Lattice) (poly : list (Q * Q)) (t : Z) :
  add_obstacle sqrt s poly t = Ok s' ->
  exists bnds lat obstacle bnd ibb1 a,
    poly_bnds poly = Ok bnds
    /\ fill s poly bnds t = Ok (lat, obstacle)
    /\ build_boundary lat obstacle = Ok bnd
    /\ compute_area s lat t = Ok a
    /\ s' = set_obstacles (set_lattice s lat)
              (obstacles s ++ [mkObstacle poly a (np_unique bnd) ibb1 t]).
Proof.
  intros Hrun. unfold add_obstacle in Hrun.
  apply bind_ok in Hrun as (b0 & H0 & Hrun).
  apply bind_ok in Hrun as (b1 & H1 & Hrun).
  apply bind_ok in Hrun as (b2 & H2 & Hrun).
  apply bind_ok in Hrun as (b3 & H3 & Hrun).
  apply bind_ok in Hrun as ([lat obstacle] & Hfill & Hrun).
  apply bind_ok in Hrun as (bnd & Hbnd & Hrun).
  apply bind_ok in Hrun as (ibb1 & _ & Hrun).
  apply bind_ok in Hrun as (a & Ha & Hrun).
  injection Hrun as <-.
  exists (b0, b1, b2, b3), lat, obstacle, bnd, ibb1, a.
  split; [apply poly_bnds_intro; assumption |]. auto.
Qed.

(** [add_obstacle] tags exactly the nodes whose coordinates lie strictly
    inside the bounding box of the polygon and pass [is_inside]: such a
    node reads the new tag afterwards, every other node of the grid reads
    what it read before. *)
Theorem add_obstacle_tags (sqrt : Q -> Q) (s s' : Lattice) (poly : list (Q * Q)) (t : Z) :
  add_obstacle sqrt s poly t = Ok s' ->
  exists bnds,
    poly_bnds poly = Ok bnds
    /\ forall i j, 0 <= i < nx s -> 0 <= j < ny s ->
         exists pt,
           lattice_coords s i j = Ok pt
           /\ np_get2 (lattice s') i j
              = if strictly_in_bbox bnds pt && is_inside poly pt
                then Ok t else np_get2 (lattice s) i j.
Proof.
  intros Hrun.
  apply add_obstacle_inv in Hrun
    as (bnds & lat & obstacle & bnd & ibb1 & a & Hb & Hfill & _ & _ & ->).
  exists bnds. split; [exact Hb |].
  intros i j Hi Hj.
  destruct (fill_spec _ _ _ _ _ _ Hfill) as [[H1 H2] H3].
  destruct (H3 i j Hi Hj) as (pt & Hpt & Hin).
  exists pt. split; [exact Hpt |].
  cbn [lattice set_obstacles set_lattice fst snd] in *.
  destruct (strictly_in_bbox bnds pt && is_inside poly pt) eqn:Htest.
  - destruct (H1 i j (Hin eq_refl)) as (_ & _ & Hget & _). exact Hget.
  - destruct (H2 i j (proj1 Hi) (proj1 Hj)) as [Hmem | Hsame]; [| exact Hsame].
    destruct (H1 i j Hmem) as (_ & _ & _ & pt' & Hpt' & Htest').
    rewrite Hpt in Hpt'. injection Hpt' as <-. congruence.
Qed.

Lemma add_obstacle_tags_witness :
  exists s' bnds,
    add_obstacle sqrt_approx (grid3 true) diamond 1 = Ok s'
    /\ poly_bnds diamond = Ok bnds
    /\ forall i j, 0 <= i < nx (grid3 true) -> 0 <= j < ny (grid3 true) ->
         exists pt,
           lattice_coords (grid3 true) i j = Ok pt
           /\ np_get2 (lattice s') i j
              = if strictly_in_bbox bnds pt && is_inside diamond pt
                then Ok 1 else np_get2 (lattice (grid3 true)) i j.
Proof.
  assert (H : exists s', add_obstacle sqrt_approx (grid3 true) diamond 1 = Ok s')
    by (eexists; vm_compute; reflexivity).
  destruct H as [s' H].
  destruct (add_obstacle_tags _ _ _ _ _ H) as (bnds & Hb & Hall).
  exists s', bnds. auto.
Defined.

(** [add_obstacle] appends one obstacle carrying the polygon and the tag
    it was given, rewrites the tag grid and nothing else (populations,
    fields, counter, flag and extents are as before), and keeps the grid
    well shaped. *)
Theorem add_obstacle_frame (sqrt : Q -> Q) (s s' : Lattice) (poly : list (Q * Q)) (t : Z) :
  add_obstacle sqrt s poly t = Ok s' ->
  (exists o, obstacles s' = obstacles s ++ [o] /\ polygon o = poly /\ tag o = t)
  /\ g s' = g s /\ rho s' = rho s /\ u s' = u s
  /\ nx s' = nx s /\ ny s' = ny s
  /\ it s' = it s /\ compute s' = compute s
  /\ (wf_grid s -> wf_grid s').
Proof.
  intros Hrun.
  apply add_obstacle_inv in Hrun
    as (bnds & lat & obstacle & bnd & ibb1 & a & _ & Hfill & _ & _ & ->).
  split; [eexists; split; [reflexivity |]; split; reflexivity |].
  repeat (split; [reflexivity |]).
  intros [Hnx Hny Hg Hu Hlat].
  constructor; cbn [nx ny g u lattice set_obstacles set_lattice]; try assumption.
  exact (fill_shape _ _ _ _ _ _ _ _ Hlat Hfill).
Qed.

Lemma add_obstacle_frame_witness :
  exists s',
    add_obstacle sqrt_approx (grid3 true) diamond 1 = Ok s'
    /\ g s' = g (grid3 true) /\ wf_grid s'.
Proof.
  assert (H : exists s', add_obstacle sqrt_approx (grid3 true) diamond 1 = Ok s')
    by (eexists; vm_compute; reflexivity).
  destruct H as [s' H]. exists s'.
  split; [exact H |].
  pose proof (add_obstacle_frame _ _ _ _ _ H) as (_ & Hg & _ & _ & _ & _ & _ & _ & Hwf).
  split; [exact Hg | exact (Hwf (wf_grid3 true))].
Defined.



(** ** Edge cases of [add_obstacle] *)

Lemma range_cons (n : Z) : 1 <= n -> exists rest, range n = 0 :: rest.
Proof.
  intros Hn. unfold range.
  destruct (Z.to_nat n) as [| k] eqn:E; [lia |].
  cbn. eexists. reflexivity.
Qed.

Lemma range_nil (n : Z) : n <= 0 -> range n = [].
Proof.
  intros Hn. unfold range.
  replace (Z.to_nat n) with 0%nat by lia. reflexivity.
Qed.

Lemma lattice_coords_raises (s : Lattice) (i j : Z) :
  nx s = 1 \/ ny s = 1 -> lattice_coords s i j = Raise ZeroDivisionError.
Proof.
  intros H. unfold lattice_coords.
  destruct (Z.eq_dec (nx s) 1) as [Hx | Hx].
  - now rewrite py_div_zero by (apply inject_Z_zero; lia).
  - rewrite py_div_nonzero by (rewrite inject_Z_zero; lia). cbn [bind].
    now rewrite py_div_zero by (apply inject_Z_zero; lia).
Qed.

Lemma for_each_skip {A S : Type} (body : S -> A -> result S) (l : list A) (s : S) :
  (forall x, In x l -> body s x = Ok s) -> for_each l body s = Ok s.
Proof.
  induction l as [| x l IH]; intros H; cbn; [reflexivity |].
  rewrite (H x (or_introl eq_refl)). cbn [bind].
  apply IH. intros y Hy. apply H. right. exact Hy.
Qed.

Lemma poly_bnds_nonempty (p : Q * Q) (poly : list (Q * Q)) :
  exists b0 b1 b2 b3,
    np_amin (map fst (p :: poly)) = Ok b0 /\ np_amax (map fst (p :: poly)) = Ok b1
    /\ np_amin (map snd (p :: poly)) = Ok b2 /\ np_amax (map snd (p :: poly)) = Ok b3.
Proof.
  cbn. repeat eexists.
Qed.

(** An empty polygon raises [ValueError].  A polygon with a vertex on a
    grid of a single column or a single row (the other extent at least 1)
    raises [ZeroDivisionError] at the first node.  On a grid with no node
    at all the call returns, having registered an obstacle with no boundary
    node and area 0 and left the tag grid alone. *)
Theorem add_obstacle_edge_cases (sqrt : Q -> Q) (s : Lattice) (t : Z) :
  add_obstacle sqrt s [] t = Raise ValueError
  /\ (forall p poly,
        (nx s = 1 /\ 1 <= ny s) \/ (ny s = 1 /\ 1 <= nx s) ->
        add_obstacle sqrt s (p :: poly) t = Raise ZeroDivisionError)
  /\ (forall p poly,
        nx s <= 0 \/ ny s <= 0 ->
        add_obstacle sqrt s (p :: poly) t
        = Ok (set_obstacles (set_lattice s (lattice s))
                (obstacles s ++ [mkObstacle (p :: poly) 0 [] [Uninit] t]))).
Proof.
  split; [reflexivity |]. split.
  - intros p poly Hgrid.
    destruct (poly_bnds_nonempty p poly) as (b0 & b1 & b2 & b3 & H0 & H1 & H2 & H3).
    unfold add_obstacle. rewrite H0, H1, H2, H3. cbn [bind].
    assert (Hfill : fill s (p :: poly) (b0, b1, b2, b3) t = Raise ZeroDivisionError).
    { unfold fill.
      destruct (range_cons (nx s)) as [rx Hrx]; [lia |].
      destruct (range_cons (ny s)) as [ry Hry]; [lia |].
      rewrite Hrx. cbn [for_each]. rewrite Hry. cbn [for_each].
      unfold fill_cell at 1.
      rewrite lattice_coords_raises by lia. reflexivity. }
    rewrite Hfill. reflexivity.
  - intros p poly Hgrid.
    destruct (poly_bnds_nonempty p poly) as (b0 & b1 & b2 & b3 & H0 & H1 & H2 & H3).
    unfold add_obstacle. rewrite H0, H1, H2, H3. cbn [bind].
    assert (Hfill : fill s (p :: poly) (b0, b1, b2, b3) t = Ok (lattice s, [])).
    { unfold fill. destruct (Z_le_gt_dec (nx s) 0) as [Hx | Hx].
      - now rewrite (range_nil (nx s)).
      - apply for_each_skip. intros i _. now rewrite (range_nil (ny s)) by lia. }
    assert (Harea : compute_area s (lattice s) t = Ok 0%Q).
    { unfold compute_area. destruct (Z_le_gt_dec (nx s) 0) as [Hx | Hx].
      - now rewrite (range_nil (nx s)).
      - apply for_each_skip. intros i _. now rewrite (range_nil (ny s)) by lia. }
    rewrite Hfill. cbn [bind build_boundary for_each].
    change (np_unique []) with (@nil (Z * Z * Z)).
    rewrite Harea.
    destruct (IBB s); reflexivity.
Qed.

Lemma add_obstacle_edge_cases_witness :
  add_obstacle sqrt_approx
    (set_lattice (two_cells 1) [[0; 0]]) ((0, 0) :: diamond)%Q 1
  = Raise ZeroDivisionError.
Proof.
  apply (proj1 (proj2 (add_obstacle_edge_cases sqrt_approx
                         (set_lattice (two_cells 1) [[0; 0]]) 1))).
  left. cbn. lia.
Defined.

(** ** The cavity profiles *)

Lemma np_index_raise (n k : Z) (e : exn) : np_index n k = Raise e -> e = IndexError.
Proof.
  unfold np_index.
  destruct (_ && _); [discriminate |].
  destruct (_ && _); [discriminate |].
  intros H. now injection H as <-.
Qed.

Lemma bind_raise {A B : Type} (r : result A) (k : A -> result B) (e : exn) :
  bind r k = Raise e -> r = Raise e \/ exists a, r = Ok a /\ k a = Raise e.
Proof.
  destruct r as [a | e']; cbn; intros H.
  - right. exists a. auto.
  - left. injection H as <-. reflexivity.
Qed.

Lemma np_get_raise {A : Type} (a : list A) (k : Z) (e : exn) :
  np_get a k = Raise e -> e = IndexError.
Proof.
  unfold np_get. intros H.
  apply bind_raise in H as [H | (p & _ & H)].
  - exact (np_index_raise _ _ _ H).
  - destruct (nth_error a p); [discriminate |]. now injection H as <-.
Qed.

Lemma np_get3_raise {A : Type} (a : list (list (list A))) (d i j : Z) (e : exn) :
  np_get3 a d i j = Raise e -> e = IndexError.
Proof.
  unfold np_get3, np_get2. intros H.
  apply bind_raise in H as [H | (l & _ & H)]; [exact (np_get_raise _ _ _ H) |].
  apply bind_raise in H as [H | (r & _ & H)]; exact (np_get_raise _ _ _ H).
Qed.

Lemma np_set1_raise {A : Type} (a : list A) (i : Z) (v : A) (e : exn) :
  np_set1 a i v = Raise e -> e = IndexError.
Proof.
  unfold np_set1. intros H.
  apply bind_raise in H as [H | (p & _ & H)]; [| discriminate].
  exact (np_index_raise _ _ _ H).
Qed.

Lemma np_set1_length {A : Type} (a b : list A) (i : Z) (v : A) :
  np_set1 a i v = Ok b -> List.length a = List.length b /\ i < Z.of_nat (List.length a).
Proof.
  unfold np_set1. intros H.
  apply bind_ok in H as (p & Hp & H). injection H as <-.
  split; [now rewrite length_set_nth |].
  pose proof (np_index_lt _ _ _ Hp) as Hlt.
  unfold np_index in Hp.
  destruct ((0 <=? i) && (i <? Z.of_nat (List.length a))) eqn:E1.
  - apply andb_true_iff in E1 as [_ H2]. now apply Z.ltb_lt in H2.
  - destruct ((- Z.of_nat (List.length a) <=? i) && (i <? 0)) eqn:E2; [| discriminate].
    apply andb_true_iff in E2 as [_ H2]. apply Z.ltb_lt in H2. lia.
Qed.

Lemma for_each_raise {A S : Type} (body : S -> A -> result S) (l : list A) (e0 : exn) :
  (forall s x e, body s x = Raise e -> e = e0) ->
  forall s e, for_each l body s = Raise e -> e = e0.
Proof.
  intros Hbody. induction l as [| x l IH]; intros s e H; cbn in H; [discriminate |].
  apply bind_raise in H as [H | (s1 & _ & H)].
  - exact (Hbody _ _ _ H).
  - exact (IH _ _ H).
Qed.

(** A loop that stores at every index of [range n] into an array cannot
    run to its end when the array is shorter than [n]. *)
Lemma store_loop_too_short {B : Type} (f : Z -> result B) (h : B -> npfloat)
    (n : Z) (e0 e1 : list npfloat) :
  Z.of_nat (List.length e0) < n ->
  for_each (range n) (fun e i => let* v := f i in np_set1 e i (h v)) e0 <> Ok e1.
Proof.
  intros Hshort Hrun.
  set (ext := fun a b : list npfloat => List.length a = List.length b).
  assert (Hbody : forall a x b,
             (let* v := f x in np_set1 a x (h v)) = Ok b -> ext a b).
  { intros a x b H. apply bind_ok in H as (v & _ & Hset).
    exact (proj1 (np_set1_length _ _ _ _ Hset)). }
  destruct (for_each_visit ext _ (range n)
              (fun a => eq_refl)
              (fun a b c (H1 : ext a b) (H2 : ext b c) => eq_trans H1 H2)
              Hbody _ _ Hrun) as [_ Hvis].
  destruct (Hvis (Z.of_nat (List.length e0))) as (a & b & Hstep & Ha & _).
  { apply range_In. lia. }
  apply bind_ok in Hstep as (v & _ & Hset).
  apply np_set1_length in Hset as [_ Hlt].
  unfold ext in Ha. lia.
Qed.

(** [cavity_error] only works on a square grid.  With [nx <> ny] one of
    its two loops stores past the end of an array sized by the other
    extent, and the call raises [IndexError] before anything is written
    out; with [nx = ny] and velocity arrays of the grid's extents it
    returns two profiles of that length. *)
Theorem cavity_error_square_only (s : Lattice) (u_lbm : Q) :
  0 <= nx s -> 0 <= ny s ->
  (nx s <> ny s -> cavity_error s u_lbm = Raise IndexError)
  /\ (nx s = ny s ->
      List.length (u s) = 2%nat ->
      Forall (shape2 (Z.to_nat (nx s)) (Z.to_nat (ny s))) (u s) ->
      exists ux uy,
        cavity_error s u_lbm = Ok (ux, uy)
        /\ List.length ux = Z.to_nat (nx s) /\ List.length uy = Z.to_nat (ny s)).
Proof.
  intros Hnx Hny.
  assert (Hzx : np_zeros1 (nx s) = Ok (repeat (Fin 0) (Z.to_nat (nx s)))).
  { unfold np_zeros1. now replace (nx s <? 0) with false by (symmetry; apply Z.ltb_ge; lia). }
  assert (Hzy : np_zeros1 (ny s) = Ok (repeat (Fin 0) (Z.to_nat (ny s)))).
  { unfold np_zeros1. now replace (ny s <? 0) with false by (symmetry; apply Z.ltb_ge; lia). }
  split.
  - intros Hne. unfold cavity_error. rewrite Hzx, Hzy. cbn [bind].
    set (body_y := fun (e : list npfloat) (i : Z) =>
                     let* v := np_get3 (u s) 1 i (ny s / 2) in
                     np_set1 e i (np_fdiv v u_lbm)).
    set (body_x := fun (e : list npfloat) (j : Z) =>
                     let* v := np_get3 (u s) 0 (nx s / 2) j in
                     np_set1 e j (np_fdiv v u_lbm)).
    assert (Hby : forall a x e, body_y a x = Raise e -> e = IndexError).
    { intros a x e H. apply bind_raise in H as [H | (v & _ & H)];
        [exact (np_get3_raise _ _ _ _ _ H) | exact (np_set1_raise _ _ _ _ H)]. }
    assert (Hbx : forall a x e, body_x a x = Raise e -> e = IndexError).
    { intros a x e H. apply bind_raise in H as [H | (v & _ & H)];
        [exact (np_get3_raise _ _ _ _ _ H) | exact (np_set1_raise _ _ _ _ H)]. }
    destruct (for_each (range (nx s)) body_y (repeat (Fin 0) (Z.to_nat (ny s))))
      as [uy | e] eqn:Ey; cbn [bind].
    + destruct (for_each (range (ny s)) body_x (repeat (Fin 0) (Z.to_nat (nx s))))
        as [ux | e] eqn:Ex; cbn [bind].
      * exfalso.
        destruct (Z_lt_ge_dec (ny s) (nx s)) as [Hlt | Hge].
        -- apply (store_loop_too_short
                    (fun i => np_get3 (u s) 1 i (ny s / 2))
                    (fun v => np_fdiv v u_lbm) _ _ uy) in Ey; [exact Ey |].
           rewrite repeat_length. lia.
        -- apply (store_loop_too_short
                    (fun j => np_get3 (u s) 0 (nx s / 2) j)
                    (fun v => np_fdiv v u_lbm) _ _ ux) in Ex; [exact Ex |].
           rewrite repeat_length. lia.
      * f_equal. exact (for_each_raise body_x _ IndexError Hbx _ _ Ex).
    + f_equal. exact (for_each_raise body_y _ IndexError Hby _ _ Ey).
  - intros Heq Hlen Hshape.
    destruct (u s) as [| u0 [| u1 [| u2 us]]] eqn:Eu; try discriminate Hlen.
    inversion Hshape as [| ? ? Hu0 Hrest]; subst.
    inversion Hrest as [| ? ? Hu1 _]; subst.
    unfold cavity_error. rewrite Hzx, Hzy. cbn [bind]. rewrite Eu.
    set (n := Z.to_nat (nx s)) in *.
    assert (Hm : Z.to_nat (ny s) = n) by (unfold n; now rewrite Heq).
    rewrite Hm in *.
    set (keeps := fun e : list npfloat => List.length e = n).
    assert (Hstore : forall (e : list npfloat) (i : Z) (v : npfloat),
               keeps e -> 0 <= i < nx s ->
               exists e', np_set1 e i v = Ok e' /\ keeps e').
    { intros e i v He Hi. unfold np_set1, keeps in *.
      rewrite np_index_in_range by lia. cbn [bind].
      eexists. split; [reflexivity |]. now rewrite length_set_nth. }
    assert (Hmid : forall i, 0 <= i < nx s -> 0 <= nx s / 2 < Z.of_nat n).
    { intros i Hi. unfold n. split; [apply Z.div_pos; lia |].
      rewrite Z2Nat.id by lia. apply Z.div_lt_upper_bound; lia. }
    destruct (for_each_ok keeps
                (fun e i => let* v := np_get3 [u0; u1] 1 i (ny s / 2) in
                            np_set1 e i (np_fdiv v u_lbm))
                (range (nx s))) with (s := repeat (Fin 0 : npfloat) n)
      as (uy & Huy & Hlen_y).
    { intros e i Hi He. apply range_In in Hi.
      destruct (np_get2_in_range n n u1 i (ny s / 2) Hu1) as [v Hv];
        [unfold n; lia | rewrite <- Heq; exact (Hmid i Hi) |].
      unfold np_get3. change (np_get [u0; u1] 1) with (Ok u1). cbn [bind].
      rewrite Hv. cbn [bind]. apply Hstore; assumption. }
    { apply repeat_length. }
    destruct (for_each_ok keeps
                (fun e j => let* v := np_get3 [u0; u1] 0 (nx s / 2) j in
                            np_set1 e j (np_fdiv v u_lbm))
                (range (ny s))) with (s := repeat (Fin 0 : npfloat) n)
      as (ux & Hux & Hlen_x).
    { intros e j Hj He. apply range_In in Hj. rewrite <- Heq in Hj.
      destruct (np_get2_in_range n n u0 (nx s / 2) j Hu0) as [v Hv];
        [exact (Hmid j Hj) | unfold n; lia |].
      unfold np_get3. change (np_get [u0; u1] 0) with (Ok u0). cbn [bind].
      rewrite Hv. cbn [bind]. apply Hstore; assumption. }
    { apply repeat_length. }
    rewrite Huy. cbn [bind]. rewrite Hux. cbn [bind].
    exists ux, uy. auto.
Qed.

Lemma cavity_error_square_only_witness :
  cavity_error (two_cells 1) 1 = Raise IndexError.
Proof.
  apply (proj1 (cavity_error_square_only (two_cells 1) 1 ltac:(cbn; lia) ltac:(cbn; lia))).
  discriminate.
Defined.

(** ** The area of an obstacle *)






(** ** The bounding box *)

Lemma fold_min_spec (l : list Q) :
  forall x : Q,
    let r := fold_left (fun m y => if Qltb y m then y else m) l x in
    (r <= x)%Q /\ (forall y, In y l -> (r <= y)%Q) /\ In r (x :: l).
Proof.
  induction l as [| z l IH]; intros x; cbn [fold_left].
  - split; [apply Qle_refl |]. split; [contradiction | left; reflexivity].
  - destruct (Qltb z x) eqn:E.
    + apply Qltb_true_iff in E.
      destruct (IH z) as (H1 & H2 & H3).
      split; [lra |]. split.
      * intros y [<- | Hy]; [exact H1 | exact (H2 y Hy)].
      * right. exact H3.
    + apply Qltb_false_iff in E.
      destruct (IH x) as (H1 & H2 & H3).
      split; [exact H1 |]. split.
      * intros y [<- | Hy]; [lra | exact (H2 y Hy)].
      * destruct H3 as [H3 | H3]; [left; exact H3 | right; right; exact H3].
Qed.

Lemma fold_max_spec (l : list Q) :
  forall x : Q,
    let r := fold_left (fun m y => if Qltb m y then y else m) l x in
    (x <= r)%Q /\ (forall y, In y l -> (y <= r)%Q) /\ In r (x :: l).
Proof.
  induction l as [| z l IH]; intros x; cbn [fold_left].
  - split; [apply Qle_refl |]. split; [contradiction | left; reflexivity].
  - destruct (Qltb x z) eqn:E.
    + apply Qltb_true_iff in E.
      destruct (IH z) as (H1 & H2 & H3).
      split; [lra |]. split.
      * intros y [<- | Hy]; [exact H1 | exact (H2 y Hy)].
      * right. exact H3.
    + apply Qltb_false_iff in E.
      destruct (IH x) as (H1 & H2 & H3).
      split; [exact H1 |]. split.
      * intros y [<- | Hy]; [lra | exact (H2 y Hy)].
      * destruct H3 as [H3 | H3]; [left; exact H3 | right; right; exact H3].
Qed.

Lemma np_amin_spec (l : list Q) (r : Q) :
  np_amin l = Ok r -> (forall y, In y l -> (r <= y)%Q) /\ In r l.
Proof.
  destruct l as [| x l]; cbn [np_amin]; [discriminate |].
  intros H. injection H as <-.
  destruct (fold_min_spec l x) as (H1 & H2 & H3).
  split; [| exact H3].
  intros y [<- | Hy]; [exact H1 | exact (H2 y Hy)].
Qed.

Lemma np_amax_spec (l : list Q) (r : Q) :
  np_amax l = Ok r -> (forall y, In y l -> (y <= r)%Q) /\ In r l.
Proof.
  destruct l as [| x l]; cbn [np_amax]; [discriminate |].
  intros H. injection H as <-.
  destruct (fold_max_spec l x) as (H1 & H2 & H3).
  split; [| exact H3].
  intros y [<- | Hy]; [exact H1 | exact (H2 y Hy)].
Qed.

(** The bounds computed at the head of [add_obstacle] are the tight
    bounding box of the vertices: every vertex lies within them and each
    bound is the coordinate of some vertex.  There is none for the empty
    polygon, which raises [ValueError]. *)
Theorem poly_bnds_tight (poly : list (Q * Q)) :
  (poly = [] -> poly_bnds poly = Raise ValueError)
  /\ (poly <> [] -> exists bnds, poly_bnds poly = Ok bnds)
  /\ (forall b0 b1 b2 b3,
        poly_bnds poly = Ok (b0, b1, b2, b3) ->
        (forall p, In p poly ->
           (b0 <= fst p /\ fst p <= b1 /\ b2 <= snd p /\ snd p <= b3)%Q)
        /\ In b0 (map fst poly) /\ In b1 (map fst poly)
        /\ In b2 (map snd poly) /\ In b3 (map snd poly)).
Proof.
  split; [intros ->; reflexivity |]. split.
  - intros Hne. destruct poly as [| p poly]; [contradiction |].
    unfold poly_bnds. cbn. eexists. reflexivity.
  - intros b0 b1 b2 b3 H. unfold poly_bnds in H.
    apply bind_ok in H as (c0 & H0 & H).
    apply bind_ok in H as (c1 & H1 & H).
    apply bind_ok in H as (c2 & H2 & H).
    apply bind_ok in H as (c3 & H3 & H).
    injection H as <- <- <- <-.
    apply np_amin_spec in H0 as [L0 I0]. apply np_amax_spec in H1 as [L1 I1].
    apply np_amin_spec in H2 as [L2 I2]. apply np_amax_spec in H3 as [L3 I3].
    split; [| auto].
    intros p Hp.
    pose proof (in_map fst _ _ Hp) as Hx. pose proof (in_map snd _ _ Hp) as Hy.
    auto.
Qed.

Lemma poly_bnds_tight_witness :
  exists bnds, poly_bnds diamond = Ok bnds.
Proof.
  apply (proj1 (proj2 (poly_bnds_tight diamond))). discriminate.
Defined.




(** ** The Poiseuille profile *)

Lemma Qdiv_zero_num (a b : Q) : (a == 0)%Q -> (a / b == 0)%Q.
Proof.
  intros Ha. unfold Qdiv. rewrite Ha. ring.
Qed.

Lemma Qmult_zero_l (a b : Q) : (a == 0)%Q -> (a * b == 0)%Q.
Proof.
  intros Ha. rewrite Ha. ring.
Qed.

Lemma Qmult_zero_r (a b : Q) : (b == 0)%Q -> (a * b == 0)%Q.
Proof.
  intros Hb. rewrite Hb. ring.
Qed.

Lemma fl_div_zero (rnd : Q -> Q) (a b : Q) :
  (b == 0)%Q -> fl_div rnd a b = Raise ZeroDivisionError.
Proof.
  intros Hb. unfold fl_div. now rewrite (Qeq_eq_bool _ _ Hb).
Qed.

Lemma fl_div_ok (rnd : Q -> Q) (a b x : Q) :
  fl_div rnd a b = Ok x -> x = rnd (a / b)%Q.
Proof.
  unfold fl_div. destruct (Qeq_bool b 0); [discriminate |].
  intros H. now injection H as <-.
Qed.

Lemma fl_div_raise (rnd : Q -> Q) (a b : Q) (e : exn) :
  fl_div rnd a b = Raise e -> e = ZeroDivisionError.
Proof.
  unfold fl_div. destruct (Qeq_bool b 0); [| discriminate].
  intros H. now injection H as <-.
Qed.

(** What a returned profile looks like. *)
Lemma poiseuille_walls (exp rnd sq : Q -> Q) (s : Lattice) (pt : Q * Q)
    (val sigma ux uy : Q) :
  keeps_zero rnd ->
  poiseuille exp rnd sq s pt val sigma = Ok (ux, uy) ->
  (uy == 0)%Q
  /\ ((snd pt == y_min s)%Q \/ (snd pt == y_max s)%Q -> (ux == 0)%Q).
Proof.
  intros Hrnd H. unfold poiseuille in H.
  apply bind_ok in H as (u0 & Hu0 & H).
  apply bind_ok in H as (e & _ & H).
  apply fl_div_ok in Hu0. injection H as <- <-.
  split; [apply Hrnd; ring |].
  intros Hy. apply Hrnd, Qmult_zero_l. rewrite Hu0.
  apply Hrnd, Qdiv_zero_num, Hrnd.
  destruct Hy as [Hy | Hy].
  - apply Qmult_zero_r, Hrnd. rewrite Hy. ring.
  - apply Qmult_zero_l, Hrnd, Qmult_zero_r, Hrnd. rewrite Hy. ring.
Qed.

(** [poiseuille] raises [ZeroDivisionError] for a channel of zero height
    and does not return for a zero [sigma].  A profile it returns has no
    transverse component and vanishes on both walls, [y = y_min] and
    [y = y_max].  This holds whatever [exp] is and for every rounding and
    square that keep zero at zero; overflow to infinity is outside the
    model. *)
Theorem poiseuille_profile (exp rnd sq : Q -> Q) (s : Lattice) (pt : Q * Q)
    (val sigma : Q) :
  keeps_zero rnd -> keeps_zero sq ->
  ((y_max s - y_min s == 0)%Q ->
   poiseuille exp rnd sq s pt val sigma = Raise ZeroDivisionError)
  /\ ((sigma == 0)%Q ->
      forall r, poiseuille exp rnd sq s pt val sigma <> Ok r)
  /\ (forall ux uy,
        poiseuille exp rnd sq s pt val sigma = Ok (ux, uy) ->
        (uy == 0)%Q
        /\ ((snd pt == y_min s)%Q \/ (snd pt == y_max s)%Q -> (ux == 0)%Q)).
Proof.
  intros Hrnd Hsq. split; [| split].
  - intros HH. unfold poiseuille.
    rewrite fl_div_zero; [reflexivity |]. apply Hsq, Hrnd, HH.
  - intros Hs r. unfold poiseuille.
    destruct (fl_div rnd _ (sq (rnd (y_max s - y_min s)%Q))) as [u0 | e] eqn:E.
    + cbn [bind]. rewrite fl_div_zero; [discriminate |].
      apply Hrnd, Qmult_zero_r, Hsq, Hs.
    + cbn [bind]. discriminate.
  - intros ux uy H. exact (poiseuille_walls _ _ _ _ _ _ _ _ _ Hrnd H).
Qed.

Lemma poiseuille_profile_witness :
  exists ux uy,
    poiseuille (fun x => 1 + x)%Q (fun x => x) (fun x => x * x)%Q
      (grid3 false) (0, 1)%Q 1 1 = Ok (ux, uy)
    /\ (uy == 0)%Q /\ (ux == 0)%Q.
Proof.
  eexists. eexists. split; [vm_compute; reflexivity |].
  destruct (proj2 (proj2 (poiseuille_profile (fun x => 1 + x)%Q (fun x => x)
                            (fun x => x * x)%Q (grid3 false) (0, 1)%Q 1 1
                            (fun x H => H)
                            (fun x H => Qmult_zero_l x x H))) _ _
              ltac:(vm_compute; reflexivity)) as [Hy Hx].
  split; [exact Hy |]. apply Hx. right. reflexivity.
Defined.

(** ** The inlet array *)

Lemma nth_set_nth_eq {A : Type} (a : list A) (i : nat) (v d : A) :
  (i < List.length a)%nat -> nth i (set_nth a i v) d = v.
Proof.
  intros Hi. apply nth_error_nth. now apply nth_error_set_nth_eq.
Qed.

Lemma nth_set_nth_ne {A : Type} (a : list A) (i k : nat) (v d : A) :
  i <> k -> nth k (set_nth a i v) d = nth k a d.
Proof.
  intros Hik.
  pose proof (nth_error_set_nth_ne a i k v Hik) as E.
  destruct (nth_error a k) as [x |] eqn:Hx.
  - rewrite (nth_error_nth _ _ d E). symmetry. exact (nth_error_nth _ _ d Hx).
  - rewrite !nth_overflow; [reflexivity | |].
    + now apply nth_error_None.
    + apply nth_error_None. exact E.
Qed.

Lemma wall_height (s : Lattice) (j : Z) (pt : Q * Q) :
  lattice_coords s 0 j = Ok pt ->
  (j = 0 -> (snd pt == y_min s)%Q) /\ (j = ny s - 1 -> (snd pt == y_max s)%Q).
Proof.
  unfold lattice_coords. intros H.
  apply bind_ok in H as (ddx & _ & H).
  apply bind_ok in H as (ddy & Hdy & H).
  apply py_div_ok in Hdy as [Hnz ->].
  injection H as <-. cbn [snd]. split; intros ->.
  - change (inject_Z 0) with 0%Q. ring.
  - set (e := inject_Z (ny s - 1)) in *. field. exact Hnz.
Qed.

Lemma np_set_col_inv (a a' : list (list Q)) (j : Z) (x y : Q) :
  0 <= j -> np_set_col a j [x; y] = Ok a' ->
  exists r0 r1,
    a = [r0; r1]
    /\ a' = [set_nth r0 (Z.to_nat j) x; set_nth r1 (Z.to_nat j) y].
Proof.
  intros Hj H. unfold np_set_col in H.
  apply bind_ok in H as (p & Hp & H).
  destruct (np_index_nonneg _ _ _ Hj Hp) as [-> _].
  destruct a as [| r0 [| r1 [| r2 rs]]]; cbn in H; try discriminate H.
  injection H as <-. exists r0, r1. auto.
Qed.

Lemma fill_all_row_zero (a : list (list Q)) :
  forall k : nat, Forall (fun x => x == 0)%Q (nth k (fill_all a 0) []).
Proof.
  unfold fill_all, map2d.
  induction a as [| r a IH]; intros [| k]; cbn [map nth]; try constructor.
  - apply Forall_forall. intros x Hx.
    apply in_map_iff in Hx as (_ & <- & _). reflexivity.
  - apply IH.
Qed.

Lemma nth_of_zero_row (l : list Q) :
  Forall (fun x => x == 0)%Q l -> forall i : nat, (nth i l 0 == 0)%Q.
Proof.
  induction 1 as [| x l Hx _ IH]; intros [| i]; cbn [nth]; try reflexivity.
  - exact Hx.
  - apply IH.
Qed.

(** Where [set_inlet_poiseuille] returns, it has zeroed the velocity
    arrays of the three other walls and set the outlet density to
    [rho_lbm], and the inlet velocity it leaves has no transverse component
    anywhere and is zero at the first node of the inlet.  This holds
    whatever [exp] is and for every rounding that keeps zero at zero;
    overflow to infinity is outside the model. *)
Theorem inlet_profile (exp rnd sq : Q -> Q) (s : Lattice) (w w' : Walls)
    (u_lbm rho_lbm val sigma : Q) :
  keeps_zero rnd ->
  set_inlet_poiseuille exp rnd sq s w u_lbm rho_lbm val sigma = Ok w' ->
  inlet_state (u_left w')
  /\ u_right w' = fill_all (u_right w) 0
  /\ u_top w' = fill_all (u_top w) 0
  /\ u_bot w' = fill_all (u_bot w) 0
  /\ rho_right w' = map (fun _ => rho_lbm) (rho_right w).
Proof.
  intros Hrnd Hrun. unfold set_inlet_poiseuille in Hrun.
  apply bind_ok in Hrun as (left1 & Hloop & Hrun). injection Hrun as <-.
  cbn [u_left u_right u_top u_bot rho_right].
  split; [| auto].
  apply (for_each_inv inlet_state _ _) in Hloop; [exact Hloop | |].
  - intros ul j ul' Hj [Hrow1 Hfirst] Hbody. apply range_In in Hj.
    apply bind_ok in Hbody as (pt & Hpt & Hbody).
    apply bind_ok in Hbody as ([ux uy] & Hv & Hbody).
    destruct (poiseuille_walls _ _ _ _ _ _ _ _ _ Hrnd Hv) as [Huy Hux].
    apply np_set_col_inv in Hbody as (r0 & r1 & -> & ->); [| lia].
    change (Forall (fun x => x == 0)%Q r1) in Hrow1.
    change (nth 0 r0 0 == 0)%Q in Hfirst.
    cbn [fst snd]. split.
    + change (Forall (fun x => x == 0)%Q (set_nth r1 (Z.to_nat j) (rnd (u_lbm * uy)%Q))).
      apply Forall_set_nth; [exact Hrow1 |].
      apply Hrnd, Qmult_zero_r, Huy.
    + change (nth 0 (set_nth r0 (Z.to_nat j) (rnd (u_lbm * ux)%Q)) 0 == 0)%Q.
      destruct (Z.eq_dec j 0) as [-> | Hj0].
      * destruct r0 as [| x r0]; [reflexivity |].
        change (rnd (u_lbm * ux) == 0)%Q.
        apply Hrnd, Qmult_zero_r, Hux. left.
        exact (proj1 (wall_height s 0 pt Hpt) eq_refl).
      * rewrite nth_set_nth_ne by lia. exact Hfirst.
  - split.
    + apply fill_all_row_zero.
    + apply nth_of_zero_row, fill_all_row_zero.
Qed.

Lemma inlet_profile_witness :
  exists w',
    set_inlet_poiseuille (fun x => 1 + x)%Q (fun x => x) (fun x => x * x)%Q
      (grid3 false)
      (mkWalls [[0; 0; 0]; [0; 0; 0]]%Q [] [] [] [1; 1; 1]%Q) (1 # 20) 1 1 1 = Ok w'
    /\ inlet_state (u_left w').
Proof.
  eexists. split; [vm_compute; reflexivity |].
  refine (proj1 (inlet_profile (fun x => 1 + x)%Q (fun x => x) (fun x => x * x)%Q
                   (grid3 false)
                   (mkWalls [[0; 0; 0]; [0; 0; 0]]%Q [] [] [] [1; 1; 1]%Q) _
                   (1 # 20) 1 1 1 (fun x H => H) _)).
  vm_compute. reflexivity.
Defined.

(** ** The rim of the driven cavity *)

Lemma map_const_repeat {A B : Type} (v : B) (l : list A) :
  map (fun _ => v) l = repeat v (List.length l).
Proof.
  induction l as [| x l IH]; cbn; [reflexivity | now rewrite IH].
Qed.

Lemma broadcast_same (k : nat) (c : Q) : broadcast_to k (repeat c k) = Ok (repeat c k).
Proof.
  unfold broadcast_to. now rewrite repeat_length, Nat.eqb_refl.
Qed.

Lemma cell_col_assign (n m : nat) (layer : list (list npfloat)) (p : nat) (c : Q)
    (i j : nat) :
  shape2 n m layer -> (p < m)%nat -> (i < n)%nat -> (j < m)%nat ->
  cell (col_assign layer p (repeat c n)) i j
  = if Nat.eqb j p then Some (Fin c) else cell layer i j.
Proof.
  intros [Hn Hm] Hp Hi Hj. unfold col_assign, cell.
  rewrite nth_error_zip_with, nth_error_repeat by exact Hi.
  destruct (nth_error layer i) as [row |] eqn:Hrow.
  2:{ apply nth_error_None in Hrow. lia. }
  rewrite Forall_forall in Hm.
  pose proof (Hm row (nth_error_In _ _ Hrow)) as Hlen.
  destruct (Nat.eqb_spec j p) as [-> | Hne].
  - apply nth_error_set_nth_eq. lia.
  - apply nth_error_set_nth_ne. lia.
Qed.

Lemma cell_row_assign (n m : nat) (layer : list (list npfloat)) (p : nat) (c : Q)
    (i j : nat) :
  shape2 n m layer -> (p < n)%nat -> (i < n)%nat -> (j < m)%nat ->
  cell (row_assign layer p (repeat c m)) i j
  = if Nat.eqb i p then Some (Fin c) else cell layer i j.
Proof.
  intros [Hn Hm] Hp Hi Hj. unfold row_assign, cell.
  destruct (Nat.eqb_spec i p) as [-> | Hne].
  - rewrite nth_error_set_nth_eq by lia.
    rewrite nth_error_map, nth_error_repeat by exact Hj. reflexivity.
  - rewrite nth_error_set_nth_ne by lia. reflexivity.
Qed.

Lemma shape2_col_assign (n m : nat) (layer : list (list npfloat)) (p : nat) (c : Q) :
  shape2 n m layer -> shape2 n m (col_assign layer p (repeat c n)).
Proof.
  intros [Hn Hm]. unfold col_assign. split.
  - rewrite zip_with_length, repeat_length. lia.
  - apply Forall_forall. intros row Hrow.
    apply zip_with_In in Hrow as (r & x & Hr & _ & ->).
    rewrite length_set_nth. rewrite Forall_forall in Hm. exact (Hm r Hr).
Qed.

Lemma shape2_row_assign (n m : nat) (layer : list (list npfloat)) (p : nat) (c : Q) :
  shape2 n m layer -> shape2 n m (row_assign layer p (repeat c m)).
Proof.
  intros [Hn Hm]. unfold row_assign. split.
  - now rewrite length_set_nth.
  - apply Forall_set_nth; [exact Hm |].
    now rewrite length_map, repeat_length.
Qed.

(** One layer after the four assignments, in source order. *)
Lemma cell_painted_layer (s : Lattice) (layer : list (list npfloat))
    (right left bot top : Q) (i j : nat) :
  1 <= nx s -> 1 <= ny s ->
  shape2 (Z.to_nat (nx s)) (Z.to_nat (ny s)) layer ->
  (i < Z.to_nat (nx s))%nat -> (j < Z.to_nat (ny s))%nat ->
  cell (row_assign
          (row_assign
             (col_assign
                (col_assign layer (Z.to_nat (ny s - 1)) (repeat top (Z.to_nat (nx s))))
                (Z.to_nat 0) (repeat bot (Z.to_nat (nx s))))
             (Z.to_nat 0) (repeat left (Z.to_nat (ny s))))
          (Z.to_nat (nx s - 1)) (repeat right (Z.to_nat (ny s)))) i j
  = rim_value s right left bot top (cell layer i j) i j.
Proof.
  intros Hnx Hny Hs Hi Hj. unfold rim_value.
  pose proof (shape2_col_assign _ _ _ (Z.to_nat (ny s - 1)) top Hs) as H1.
  pose proof (shape2_col_assign _ _ _ (Z.to_nat 0) bot H1) as H2.
  pose proof (shape2_row_assign _ _ _ (Z.to_nat 0) left H2) as H3.
  rewrite (cell_row_assign _ _ _ _ _ _ _ H3) by lia.
  destruct (Nat.eqb i (Z.to_nat (nx s - 1))); [reflexivity |].
  rewrite (cell_row_assign _ _ _ _ _ _ _ H2) by lia.
  change (Z.to_nat 0) with 0%nat.
  destruct (Nat.eqb i 0); [reflexivity |].
  rewrite (cell_col_assign _ _ _ _ _ _ _ H1) by lia.
  destruct (Nat.eqb j 0); [reflexivity |].
  rewrite (cell_col_assign _ _ _ _ _ _ _ Hs) by lia.
  reflexivity.
Qed.

Lemma wall_rows (m : nat) (a : list (list Q)) (r : Z) (v : Q) :
  shape2 2 m a -> 0 <= r < 2 ->
  exists a',
    np_set_row_const (fill_all a 0) r v = Ok a'
    /\ np_get a' r = Ok (repeat v m)
    /\ np_get a' (1 - r) = Ok (repeat 0%Q m)
    /\ shape2 2 m a'.
Proof.
  intros [Hrows Hcols] Hr.
  destruct a as [| r0 [| r1 [| r2 rs]]]; try discriminate Hrows.
  inversion Hcols as [| ? ? H0 Hrest]; subst.
  inversion Hrest as [| ? ? H1 _]; subst.
  unfold fill_all, map2d. cbn [map]. rewrite !map_const_repeat, H1.
  assert (Hcase : r = 0 \/ r = 1) by lia.
  destruct Hcase as [-> | ->]; eexists;
    (split; [reflexivity |]); cbn [set_nth]; rewrite map_const_repeat, repeat_length;
    (split; [reflexivity |]); (split; [reflexivity |]);
    (split; [reflexivity | repeat constructor; apply repeat_length]).
Qed.

Lemma u_set_col_0 (s : Lattice) (l0 l1 : list (list npfloat)) (j : Z) (c : Q) :
  0 <= j < ny s -> List.length l0 = Z.to_nat (nx s) ->
  u_set_col s [l0; l1] 0 j (repeat c (Z.to_nat (nx s)))
  = Ok [col_assign l0 (Z.to_nat j) (repeat c (Z.to_nat (nx s))); l1].
Proof.
  intros Hj Hlen. unfold u_set_col.
  change (np_index (Z.of_nat (List.length [l0; l1])) 0) with (@Ok nat 0%nat).
  cbn [bind nth_error].
  rewrite np_index_in_range by exact Hj. cbn [bind].
  rewrite Hlen, broadcast_same. reflexivity.
Qed.

Lemma u_set_col_1 (s : Lattice) (l0 l1 : list (list npfloat)) (j : Z) (c : Q) :
  0 <= j < ny s -> List.length l1 = Z.to_nat (nx s) ->
  u_set_col s [l0; l1] 1 j (repeat c (Z.to_nat (nx s)))
  = Ok [l0; col_assign l1 (Z.to_nat j) (repeat c (Z.to_nat (nx s)))].
Proof.
  intros Hj Hlen. unfold u_set_col.
  change (np_index (Z.of_nat (List.length [l0; l1])) 1) with (@Ok nat 1%nat).
  cbn [bind nth_error].
  rewrite np_index_in_range by exact Hj. cbn [bind].
  rewrite Hlen, broadcast_same. reflexivity.
Qed.

Lemma u_set_row_0 (s : Lattice) (l0 l1 : list (list npfloat)) (i : Z) (c : Q) :
  0 <= i < nx s ->
  u_set_row s [l0; l1] 0 i (repeat c (Z.to_nat (ny s)))
  = Ok [row_assign l0 (Z.to_nat i) (repeat c (Z.to_nat (ny s))); l1].
Proof.
  intros Hi. unfold u_set_row.
  change (np_index (Z.of_nat (List.length [l0; l1])) 0) with (@Ok nat 0%nat).
  cbn [bind nth_error].
  rewrite np_index_in_range by exact Hi. cbn [bind].
  rewrite broadcast_same. reflexivity.
Qed.

Lemma u_set_row_1 (s : Lattice) (l0 l1 : list (list npfloat)) (i : Z) (c : Q) :
  0 <= i < nx s ->
  u_set_row s [l0; l1] 1 i (repeat c (Z.to_nat (ny s)))
  = Ok [l0; row_assign l1 (Z.to_nat i) (repeat c (Z.to_nat (ny s)))].
Proof.
  intros Hi. unfold u_set_row.
  change (np_index (Z.of_nat (List.length [l0; l1])) 1) with (@Ok nat 1%nat).
  cbn [bind nth_error].
  rewrite np_index_in_range by exact Hi. cbn [bind].
  rewrite broadcast_same. reflexivity.
Qed.

(** On a grid with at least one node and arrays of the constructor's
    shapes [set_cavity] returns.  The wall arrays hold the four prescribed
    tangential velocities and zero normal velocities.  In [u] only the rim
    changes, and where walls meet the later assignment wins: the first and
    the last column of nodes carry the side walls' values over their whole
    height, so the lid velocity [ut] is not imposed at the two top corner
    nodes (their [u_x] is 0), and only nodes strictly between get the
    bottom value on the first row and the lid value on the last. *)
Theorem set_cavity_rim (s : Lattice) (w : Walls) (ut ub ul ur : Q) :
  cavity_ready s w ->
  exists s' w',
    set_cavity s w ut ub ul ur = Ok (s', w')
    /\ u_top w' = [repeat ut (Z.to_nat (nx s)); repeat 0%Q (Z.to_nat (nx s))]
    /\ u_bot w' = [repeat ub (Z.to_nat (nx s)); repeat 0%Q (Z.to_nat (nx s))]
    /\ u_left w' = [repeat 0%Q (Z.to_nat (ny s)); repeat ul (Z.to_nat (ny s))]
    /\ u_right w' = [repeat 0%Q (Z.to_nat (ny s)); repeat ur (Z.to_nat (ny s))]
    /\ rho_right w' = rho_right w
    /\ g s' = g s /\ rho s' = rho s /\ lattice s' = lattice s
    /\ forall i j : nat,
         (i < Z.to_nat (nx s))%nat -> (j < Z.to_nat (ny s))%nat ->
         u_at s' 0 i j = rim_value s 0 0 ub ut (u_at s 0 i j) i j
         /\ u_at s' 1 i j = rim_value s ur ul 0 0 (u_at s 1 i j) i j.
Proof.
  intros [Hnx Hny Hlx Hly (l0 & l1 & Hu & Hs0 & Hs1) Hleft Hright Htop Hbot].
  destruct (wall_rows _ _ 0 ut Htop) as (top1 & Et & Et0 & Et1 & Hst); [lia |].
  destruct (wall_rows _ _ 0 ub Hbot) as (bot1 & Eb & Eb0 & Eb1 & Hsb); [lia |].
  destruct (wall_rows _ _ 1 ul Hleft) as (left1 & El & El1 & El0 & Hsl); [lia |].
  destruct (wall_rows _ _ 1 ur Hright) as (right1 & Er & Er1 & Er0 & Hsr); [lia |].
  cbn [Z.sub Z.add Z.opp Z.pos_sub] in Et1, Eb1, El0, Er0.
  pose proof (shape2_col_assign _ _ _ (Z.to_nat (ly s)) ut Hs0) as Ha0.
  pose proof (shape2_col_assign _ _ _ (Z.to_nat (ly s)) 0%Q Hs1) as Ha1.
  pose proof (shape2_col_assign _ _ _ (Z.to_nat 0) ub Ha0) as Hb0.
  pose proof (shape2_col_assign _ _ _ (Z.to_nat 0) 0%Q Ha1) as Hb1.
  unfold set_cavity.
  rewrite Et, Eb, El, Er. cbn [bind].
  rewrite Et0. cbn [bind]. rewrite Hu.
  rewrite u_set_col_0 by (try lia; exact (proj1 Hs0)). cbn [bind].
  rewrite Et1. cbn [bind].
  rewrite u_set_col_1 by (try lia; exact (proj1 Hs1)). cbn [bind].
  rewrite Eb0. cbn [bind].
  rewrite u_set_col_0 by (try lia; exact (proj1 Ha0)). cbn [bind].
  rewrite Eb1. cbn [bind].
  rewrite u_set_col_1 by (try lia; exact (proj1 Ha1)). cbn [bind].
  rewrite El0. cbn [bind]. rewrite u_set_row_0 by lia. cbn [bind].
  rewrite El1. cbn [bind]. rewrite u_set_row_1 by lia. cbn [bind].
  rewrite Er0. cbn [bind]. rewrite u_set_row_0 by lia. cbn [bind].
  rewrite Er1. cbn [bind]. rewrite u_set_row_1 by lia. cbn [bind].
  eexists. eexists. split; [reflexivity |].
  cbn [u_top u_bot u_left u_right rho_right].
  destruct top1 as [| ta [| tb [| tc ts]]]; try (destruct Hst as [Hst _]; discriminate Hst).
  destruct bot1 as [| ba [| bb [| bc bs]]]; try (destruct Hsb as [Hsb _]; discriminate Hsb).
  destruct left1 as [| la [| lb [| lc ls]]]; try (destruct Hsl as [Hsl _]; discriminate Hsl).
  destruct right1 as [| ra [| rb [| rc rs]]]; try (destruct Hsr as [Hsr _]; discriminate Hsr).
  injection Et0 as ->. injection Et1 as ->.
  injection Eb0 as ->. injection Eb1 as ->.
  injection El0 as ->. injection El1 as ->.
  injection Er0 as ->. injection Er1 as ->.
  repeat (split; [reflexivity |]).
  intros i j Hi Hj. unfold u_at. cbn [u set_u nth_error]. rewrite Hu. cbn [nth_error].
  rewrite Hlx, Hly. split.
  - exact (cell_painted_layer s l0 0 0 ub ut i j Hnx Hny Hs0 Hi Hj).
  - exact (cell_painted_layer s l1 ur ul 0 0 i j Hnx Hny Hs1 Hi Hj).
Qed.

Lemma cavity_ready_grid3 : cavity_ready (grid3 false) walls3.
Proof.
  constructor; cbn; try lia; try reflexivity.
  - eexists. eexists. split; [reflexivity |].
    split; (split; [reflexivity | repeat constructor]).
  - split; [reflexivity | repeat constructor].
  - split; [reflexivity | repeat constructor].
  - split; [reflexivity | repeat constructor].
  - split; [reflexivity | repeat constructor].
Qed.

Lemma set_cavity_rim_witness :
  exists s' w',
    set_cavity (grid3 false) walls3 (1 # 10) 0 0 0 = Ok (s', w')
    /\ u_at s' 0 1 2 = Some (Fin (1 # 10))
    /\ u_at s' 0 0 2 = Some (Fin 0)
    /\ u_at s' 0 2 2 = Some (Fin 0)
    /\ u_at s' 0 1 1 = u_at (grid3 false) 0 1 1.
Proof.
  destruct (set_cavity_rim (grid3 false) walls3 (1 # 10) 0 0 0 cavity_ready_grid3)
    as (s' & w' & Hrun & _ & _ & _ & _ & _ & _ & _ & _ & Hrim).
  exists s', w'. split; [exact Hrun |].
  split; [exact (proj1 (Hrim 1%nat 2%nat ltac:(cbn; lia) ltac:(cbn; lia))) |].
  split; [exact (proj1 (Hrim 0%nat 2%nat ltac:(cbn; lia) ltac:(cbn; lia))) |].
  split; [exact (proj1 (Hrim 2%nat 2%nat ltac:(cbn; lia) ltac:(cbn; lia))) |].
  exact (proj1 (Hrim 1%nat 1%nat ltac:(cbn; lia) ltac:(cbn; lia))).
Defined.
